(** * regex.py: a rule-file driven regular-expression scanner

    A shallow embedding of [src/regex.py] (rule loader, scanner, summary and
    command-line driver) and the properties its specification states.

    Conventions of the embedding.
    - Text is [string]; counters are [nat].
    - A value produced by [yaml.safe_load] is a [yaml] tree: null, bool, int,
      str, bytes (a [!!binary] scalar), sequence, mapping with string keys.
      Under the operations the loader applies (truth value, [in], indexing,
      iteration, [.get], [re.compile]) a float or a timestamp behaves like an
      int and a set like a sequence; mappings with keys that are not strings
      are outside the model.
    - [print], [parser.print_help] and the calls of [scan_token] are recorded in
      an event log; an uncaught exception or [sys.exit] ends the run.
    - The regular-expression engine ([re.compile], [Pattern.search]) and the
      built-ins [str()] and [str.strip] are not part of the repository: they
      are the fields of the class [Runtime], and every theorem holds for every
      runtime.  A small reference runtime is given for concrete runs.
    - The file system is a [world]: the listing of each directory, what
      [glob] expands a directory pattern to, and what is found at the path of
      a token file. *)

From Stdlib Require Import String Ascii List ZArith Lia Bool Arith DecimalString.
From Stdlib Require Import Permutation.
Import ListNotations.
Open Scope string_scope.
Open Scope list_scope.

(** ** Strings as Python uses them *)

(** The line feed, [chr(10)]. *)
Definition nl : string := String (ascii_of_nat 10) "".

(** [s * n] for a string [s]. *)
Fixpoint str_repeat (s : string) (n : nat) : string :=
  match n with
  | O => ""
  | S n' => (s ++ str_repeat s n')%string
  end.

(** [str(n)] for a non-negative integer. *)
Definition str_of_nat (n : nat) : string :=
  NilEmpty.string_of_uint (Nat.to_uint n).

(** [needle in hay] for two strings. *)
Fixpoint str_contains (needle hay : string) : bool :=
  String.prefix needle hay ||
  match hay with
  | "" => false
  | String _ hay' => str_contains needle hay'
  end.

(** [hay.endswith(suffix)]. *)
Fixpoint str_endswith (hay suffix : string) : bool :=
  String.eqb hay suffix ||
  match hay with
  | "" => false
  | String _ hay' => str_endswith hay' suffix
  end.

(** ** Paths and globbing *)

Definition has_slash (s : string) : bool := str_contains "/" s.

(** [os.path.basename]: what follows the last slash. *)
Fixpoint os_path_basename (p : string) : string :=
  match p with
  | "" => ""
  | String c rest =>
      if has_slash rest then os_path_basename rest
      else if Ascii.eqb c "/" then rest else p
  end.

(** [os.path.join a b] on POSIX. *)
Definition os_path_join (a b : string) : string :=
  if String.prefix "/" b then b
  else if String.eqb a "" then b
  else if str_endswith a "/" then (a ++ b)%string
  else (a ++ "/" ++ b)%string.

(** [fnmatch.fnmatchcase name pat] for patterns made of literal characters,
    [*] and [?] (the loader's pattern has no bracket). *)
Fixpoint fnmatch (pat : string) : string -> bool :=
  match pat with
  | "" => fun name => match name with "" => true | _ => false end
  | String p pat' =>
      if Ascii.eqb p "*" then
        fix star (name : string) : bool :=
          fnmatch pat' name ||
          match name with
          | "" => false
          | String _ name' => star name'
          end
      else if Ascii.eqb p "?" then
        fun name =>
          match name with
          | "" => false
          | String _ name' => fnmatch pat' name'
          end
      else
        fun name =>
          match name with
          | "" => false
          | String c name' => Ascii.eqb p c && fnmatch pat' name'
          end
  end.

(** [glob._ishidden]: the name starts with a dot. *)
Definition ishidden (name : string) : bool := String.prefix "." name.

(** [glob.has_magic]: one of the characters [*], [?] and [[] occurs. *)
Fixpoint has_magic (s : string) : bool :=
  match s with
  | "" => false
  | String c s' =>
      Ascii.eqb c "*" || Ascii.eqb c "?" || Ascii.eqb c "[" || has_magic s'
  end.

(** [s.rstrip("/")]. *)
Fixpoint rstrip_slashes (s : string) : string :=
  match s with
  | "" => ""
  | String c s' =>
      match rstrip_slashes s' with
      | "" => if Ascii.eqb c "/" then "" else String c ""
      | r => String c r
      end
  end.

(** What precedes the last slash, that slash included. *)
Fixpoint upto_last_slash (p : string) : string :=
  match p with
  | "" => ""
  | String c rest =>
      if has_slash rest then String c (upto_last_slash rest)
      else if Ascii.eqb c "/" then "/" else ""
  end.

(** [os.path.split] on POSIX: the head loses its trailing slashes unless it
    is made of slashes only. *)
Definition os_path_split (p : string) : string * string :=
  let head := upto_last_slash p in
  let tail := os_path_basename p in
  (if String.eqb (rstrip_slashes head) "" then head else rstrip_slashes head,
   tail).

(** ** YAML values and the Python operations the loader applies to them *)

#[local] Set Warnings "-register-all".

Inductive yaml : Type :=
  | YNull
  | YBool (b : bool)
  | YInt (n : Z)
  | YStr (s : string)
  | YBytes (b : string)
  | YSeq (items : list yaml)
  | YMap (fields : list (string * yaml)).

Inductive exn : Type :=
  | TypeError
  | AttributeError
  | KeyError
  | OSError
  | OverflowError
  | UnicodeDecodeError
  | EngineError
  | SystemExit (status : Z).

(** Python truthiness ([if not x]). *)
Definition truthy (v : yaml) : bool :=
  match v with
  | YNull => false
  | YBool b => b
  | YInt n => negb (n =? 0)%Z
  | YStr s => negb (String.eqb s "")
  | YBytes b => negb (String.eqb b "")
  | YSeq items => match items with [] => false | _ => true end
  | YMap fields => match fields with [] => false | _ => true end
  end.

(** Lookup in a mapping (a dict keeps one value per key; the first binding of
    the list is that value). *)
Fixpoint lookup (key : string) (fields : list (string * yaml)) : option yaml :=
  match fields with
  | [] => None
  | (k, v) :: rest => if String.eqb k key then Some v else lookup key rest
  end.

Inductive outcome (A : Type) : Type :=
  | Returned (a : A)
  | Raised (e : exn).
Arguments Returned {A} a.
Arguments Raised {A} e.

(** [key in v] for a string key. *)
Definition py_contains (key : string) (v : yaml) : outcome bool :=
  match v with
  | YNull | YBool _ | YInt _ | YBytes _ => Raised TypeError
  | YStr s => Returned (str_contains key s)
  | YSeq items =>
      Returned (existsb (fun x => match x with
                                  | YStr s => String.eqb s key
                                  | _ => false
                                  end) items)
  | YMap fields =>
      Returned (match lookup key fields with Some _ => true | None => false end)
  end.

(** [v[key]] for a string key. *)
Definition py_getitem (v : yaml) (key : string) : outcome yaml :=
  match v with
  | YMap fields =>
      match lookup key fields with
      | Some x => Returned x
      | None => Raised KeyError
      end
  | _ => Raised TypeError
  end.

(** [v.get(key, default)]: only a mapping has the method. *)
Definition py_get (v : yaml) (key : string) (default : yaml) : outcome yaml :=
  match v with
  | YMap fields =>
      Returned (match lookup key fields with Some x => x | None => default end)
  | _ => Raised AttributeError
  end.

Fixpoint chars_of (s : string) : list yaml :=
  match s with
  | "" => []
  | String c s' => YStr (String c "") :: chars_of s'
  end.

Fixpoint bytes_of (b : string) : list yaml :=
  match b with
  | "" => []
  | String c b' => YInt (Z.of_nat (nat_of_ascii c)) :: bytes_of b'
  end.

(** The items [for item in v] visits: the elements of a sequence, the keys of a
    mapping, the characters of a string, the bytes of a binary scalar. *)
Definition py_iter (v : yaml) : outcome (list yaml) :=
  match v with
  | YSeq items => Returned items
  | YMap fields => Returned (map (fun kv => YStr (fst kv)) fields)
  | YStr s => Returned (chars_of s)
  | YBytes b => Returned (bytes_of b)
  | YNull | YBool _ | YInt _ => Raised TypeError
  end.

(** ** Runs: an event log and how the run ended *)

(** What a run leaves behind: a line written by [print] (without its final
    line feed), the usage text of [parser.print_help], and a marker for each
    call of [scan_token]. *)
Inductive event : Type :=
  | Stdout (line : string)
  | Usage
  | Scanned (token : string).

(** A computation: the events it emitted, and its result or the exception
    that ended it. *)
Definition io (A : Type) : Type := (list event * outcome A)%type.

Definition ret {A : Type} (a : A) : io A := ([], Returned a).

Definition bind {A B : Type} (m : io A) (f : A -> io B) : io B :=
  match m with
  | (l, Returned a) => let (l', o) := f a in (l ++ l', o)
  | (l, Raised e) => (l, Raised e)
  end.

Definition raise {A : Type} (e : exn) : io A := ([], Raised e).

Definition emit (e : event) : io unit := ([e], Returned tt).

Definition print (line : string) : io unit := emit (Stdout line).

Definition lift {A : Type} (o : outcome A) : io A := ([], o).

Definition sys_exit {A : Type} (status : Z) : io A := raise (SystemExit status).

Declare Scope io_scope.
Delimit Scope io_scope with io.
Notation "x <- c1 ;; c2" := (bind c1 (fun x => c2))
  (at level 61, c1 at next level, right associativity) : io_scope.
Notation "' pat <- c1 ;; c2" := (bind c1 (fun x => match x with pat => c2 end))
  (at level 61, pat pattern, c1 at next level, right associativity) : io_scope.
Notation "c1 ;; c2" := (bind c1 (fun _ => c2))
  (at level 61, right associativity) : io_scope.
Open Scope io_scope.

(** [for x in xs: st = body x st]; a [continue] is a body that returns the
    state as it got it. *)
Fixpoint for_each {A St : Type} (xs : list A) (body : A -> St -> io St)
  (st : St) : io St :=
  match xs with
  | [] => ret st
  | x :: rest => st' <- body x st ;; for_each rest body st'
  end.

(** The events of a run. *)
Definition log {A : Type} (m : io A) : list event := fst m.

(** How a run ended. *)
Definition result {A : Type} (m : io A) : outcome A := snd m.

(** The status the process exits with: 0 after a normal return, the argument
    of [sys.exit], 1 after any other uncaught exception. *)
Definition exit_status {A : Type} (m : io A) : Z :=
  match result m with
  | Returned _ => 0%Z
  | Raised (SystemExit status) => status
  | Raised _ => 1%Z
  end.

(** The tokens [scan_token] was called with, in order. *)
Fixpoint scanned (l : list event) : list string :=
  match l with
  | [] => []
  | Scanned t :: rest => t :: scanned rest
  | _ :: rest => scanned rest
  end.

(** The lines written to standard output, in order. *)
Fixpoint stdout (l : list event) : list string :=
  match l with
  | [] => []
  | Stdout s :: rest => s :: stdout rest
  | _ :: rest => stdout rest
  end.

(** ** Color System *)

Module Color.

Definition ESC : string := String (ascii_of_nat 27) "".
Definition RED : string := ESC ++ "[31m".
Definition GREEN : string := ESC ++ "[32m".
Definition YELLOW : string := ESC ++ "[33m".
Definition CYAN : string := ESC ++ "[36m".
Definition BOLD : string := ESC ++ "[1m".
Definition RESET : string := ESC ++ "[0m".

(** [Color.wrap]; the class attribute [enabled] is passed explicitly. *)
Definition wrap (enabled : bool) (text color : string) : string :=
  if negb enabled then text else color ++ text ++ RESET.

End Color.

(** ** The runtime the program runs on *)

(** What [re.compile] does with a regex source: a compiled pattern,
    [re.error] for an invalid pattern, or an exception of another class. *)
Inductive compiled (P : Type) : Type :=
  | Compiled (p : P)
  | ReError
  | OtherError (e : exn).
Arguments Compiled {P} p.
Arguments ReError {P}.
Arguments OtherError {P} e.

Class Runtime : Type := {
  (** what the engine compiles a regex source to *)
  pattern : Type;
  (** [re.compile] on a [str] *)
  re_compile : string -> compiled pattern;
  (** [re.compile] on a [bytes] *)
  re_compile_bytes : string -> compiled pattern;
  (** [Pattern.match(text, pos)] of a pattern compiled from a [str]: is there
      a match that starts at index [pos] of the text *)
  re_match_at : pattern -> string -> nat -> bool;
  (** [Pattern.search(text)] of a pattern compiled from a [str] *)
  re_search : pattern -> string -> bool;
  (** [search] scans the text for a position where the pattern matches *)
  re_search_scans :
    forall p text,
      re_search p text = true <->
      exists pos, pos <= String.length text /\ re_match_at p text pos = true;
  (** [str()] of a loaded value *)
  py_str : yaml -> string;
  (** [str.strip()] *)
  py_strip : string -> string
}.

(** A [re.Pattern] object: it remembers whether its source was a [str] or a
    [bytes]. *)
Inductive regex_object (P : Type) : Type :=
  | StrPattern (p : P)
  | BytesPattern (p : P).
Arguments StrPattern {P} p.
Arguments BytesPattern {P} p.

(** ** The files the program reads *)

(** What [open] and [yaml.safe_load] make of a rule file: an exception with
    its message, or the parsed document. *)
Inductive loaded : Type :=
  | LoadFails (msg : string)
  | Parsed (data : yaml).

(** A path given with [-f]: absent; present but [open] raises (a directory,
    say); a text file with its lines; or a file whose reading stops with an
    exception after some lines (bytes that do not decode, say). *)
Inductive token_source : Type :=
  | NoSuchPath
  | NotReadable
  | Lines (lines : list string)
  | Broken (lines : list string) (e : exn).

Record world : Type := {
  (** [sys.stdout.isatty()] *)
  isatty : bool;
  (** the entries of a directory, in the order the system lists them, each
      with what loading it as YAML gives; the empty path is the current
      directory *)
  listdir : string -> list (string * loaded);
  (** the directories [glob] expands a directory pattern that holds a
      wildcard to *)
  glob_dirs : string -> list string;
  (** what is found at the path of a token file *)
  token_path : string -> token_source
}.

(** ** The program *)

Definition DEFAULT_RULES_DIR : string := "/opt/regex/list".

Section Program.

Context {R : Runtime}.

(** A rule is a [(name, compiled)] tuple; the name is whatever the YAML
    document holds under [name]. *)
Definition rule : Type := (yaml * regex_object pattern)%type.

(** The [defaultdict(list)] of the loader, as its [items()]: the files in the
    order their first rule was added, each with its rules in order. *)
Definition ruleset : Type := list (string * list rule).

(** [rules[file].append(r)]. *)
Fixpoint dict_append (rules : ruleset) (file : string) (r : rule) : ruleset :=
  match rules with
  | [] => [(file, [r])]
  | (f, rs) :: rest =>
      if String.eqb f file then (f, rs ++ [r]) :: rest
      else (f, rs) :: dict_append rest file r
  end.

(** [glob._glob1]: the entries of a directory that match the pattern; a
    hidden entry is listed for a hidden pattern only. *)
Definition glob1 (w : world) (dirname pat : string) : list (string * loaded) :=
  filter (fun e => (ishidden pat || negb (ishidden (fst e)))
                   && fnmatch pat (fst e))
         (listdir w dirname).

(** [glob.glob(pathname)] for a pathname whose last component holds a
    wildcard and no bracket, which is how the loader calls it: the pathname
    is split, a directory part with a wildcard is expanded, and the matching
    entries of each directory are listed under their joined paths. *)
Definition glob_glob (w : world) (pathname : string)
  : list (string * loaded) :=
  let '(dirname, basename) := os_path_split pathname in
  let dirs := if has_magic dirname then glob_dirs w dirname else [dirname] in
  flat_map (fun d => map (fun e => (os_path_join d (fst e), snd e))
                         (glob1 w d basename))
           dirs.

(** *** Rule Loader *)

(** The body of [for item in data["patterns"]]. *)
Definition load_item (file : string) (item : yaml) (st : ruleset * nat)
  : io (ruleset * nat) :=
  let '(rules, total_rules) := st in
  pattern_obj <- lift (py_get item "pattern" (YMap [])) ;;
  name <- lift (py_get pattern_obj "name" (YStr "unknown")) ;;
  regex <- lift (py_get pattern_obj "regex" YNull) ;;
  if negb (truthy regex) then ret st
  else
    match regex with
    | YStr s =>
        match re_compile s with
        | Compiled c =>
            ret (dict_append rules file (name, StrPattern c), S total_rules)
        | ReError => ret st
        | OtherError e => raise e
        end
    | YBytes b =>
        match re_compile_bytes b with
        | Compiled c =>
            ret (dict_append rules file (name, BytesPattern c), S total_rules)
        | ReError => ret st
        | OtherError e => raise e
        end
    | _ => raise TypeError
    end.

(** The body of [for file in files]. *)
Definition load_file (color : bool) (entry : string * loaded)
  (st : ruleset * nat) : io (ruleset * nat) :=
  let '(file, content) := entry in
  match content with
  | LoadFails msg =>
      print (Color.wrap color ("[!] Failed to load " ++ file ++ ": " ++ msg)
               Color.RED) ;;
      ret st
  | Parsed data =>
      if negb (truthy data) then ret st
      else
        has <- lift (py_contains "patterns" data) ;;
        if negb has then ret st
        else
          entries <- lift (py_getitem data "patterns") ;;
          items <- lift (py_iter entries) ;;
          for_each items (load_item file) st
  end.

Definition load_rules (color : bool) (w : world) (rules_dir : string)
  : io (ruleset * nat) :=
  let rules : ruleset := [] in
  let total_rules := 0 in
  let pattern := os_path_join rules_dir "*.y*ml" in
  let files := glob_glob w pattern in
  match files with
  | [] =>
      print (Color.wrap color ("[!] No YAML files found in " ++ rules_dir)
               Color.RED) ;;
      ret (rules, total_rules)
  | _ => for_each files (load_file color) (rules, total_rules)
  end.

(** *** Scanner *)

(** [regex.search(token)] for a token that is a [str]: a pattern compiled
    from [bytes] raises [TypeError]. *)
Definition Pattern_search (regex : regex_object pattern) (token : string)
  : outcome bool :=
  match regex with
  | StrPattern p => Returned (re_search p token)
  | BytesPattern _ => Raised TypeError
  end.

(** The body of [for name, regex in file_rules]: the names that matched so
    far and the running total. *)
Definition scan_rule (token : string) (r : rule) (acc : list yaml * nat)
  : io (list yaml * nat) :=
  let '(matches, total_matches) := acc in
  let '(name, regex) := r in
  hit <- lift (Pattern_search regex token) ;;
  if hit then ret (matches ++ [name], S total_matches) else ret acc.

(** The body of [for file, file_rules in rules.items()]. *)
Definition scan_entry (color : bool) (token : string)
  (entry : string * list rule) (st : bool * nat) : io (bool * nat) :=
  let '(file, file_rules) := entry in
  let '(found, total_matches) := st in
  ' (matches, total_matches) <-
    for_each file_rules (scan_rule token) ([], total_matches) ;;
  match matches with
  | [] => ret (found, total_matches)
  | _ =>
      print (Color.wrap color (nl ++ "[+] Match in " ++ os_path_basename file)
               Color.GREEN) ;;
      for_each matches
        (fun (m : yaml) (u : unit) =>
           print ("   - " ++ Color.wrap color (py_str m) Color.YELLOW))
        tt ;;
      ret (true, total_matches)
  end.

Definition scan_token (color : bool) (token : string) (rules : ruleset)
  : io nat :=
  emit (Scanned token) ;;
  ' (found, total_matches) <-
    for_each rules (scan_entry color token) (false, 0) ;;
  (if negb found
   then print (Color.wrap color (nl ++ "[-] No matches found") Color.RED)
   else ret tt) ;;
  ret total_matches.

(** *** Summary *)

Definition print_summary (color : bool) (tokens matches : nat) : io unit :=
  print (nl ++ str_repeat "=" 60) ;;
  print (Color.wrap color "SCAN COMPLETE" Color.BOLD) ;;
  print (Color.wrap color ("Tokens scanned : " ++ str_of_nat tokens)
           Color.CYAN) ;;
  print (Color.wrap color ("Total matches  : " ++ str_of_nat matches)
           Color.GREEN).

(** The body of [for line in f]. *)
Definition scan_line (color : bool) (rules : ruleset) (line : string)
  (st : nat * nat) : io (nat * nat) :=
  let '(tokens_scanned, total_matches) := st in
  let token := py_strip line in
  if String.eqb token "" then ret st
  else
    print (nl ++ str_repeat "=" 60) ;;
    print (Color.wrap color "Token:" Color.BOLD ++ " "
           ++ Color.wrap color token Color.YELLOW) ;;
    n <- scan_token color token rules ;;
    ret (S tokens_scanned, total_matches + n).

Definition scan_file (color : bool) (w : world) (path : string)
  (rules : ruleset) : io unit :=
  match token_path w path with
  | NoSuchPath =>
      print (Color.wrap color "[!] Input file not found" Color.RED)
  | NotReadable => raise OSError
  | Lines lines =>
      ' (tokens_scanned, total_matches) <-
        for_each lines (scan_line color rules) (0, 0) ;;
      print_summary color tokens_scanned total_matches
  | Broken lines e =>
      for_each lines (scan_line color rules) (0, 0) ;;
      raise e
  end.

(** *** Main CLI *)

(** The namespace [parser.parse_args()] returns. *)
Record args : Type := {
  token : option string;
  file : option string;
  directory : string;
  no_color : bool
}.

(** Truthiness of an optional string argument: given and not empty. *)
Definition given (a : option string) : bool :=
  match a with
  | Some s => negb (String.eqb s "")
  | None => false
  end.

Definition text_of (a : option string) : string :=
  match a with
  | Some s => s
  | None => ""
  end.

(** [Color.enabled] once the options are read: [sys.stdout.isatty()] unless
    [--no-color] called [Color.disable()]. *)
Definition color_enabled (w : world) (a : args) : bool :=
  if no_color a then false else isatty w.

Definition main (w : world) (a : args) : io unit :=
  let color := color_enabled w a in
  if negb (given (token a)) && negb (given (file a)) then
    emit Usage ;;
    sys_exit 1
  else
    print (Color.wrap color "[*] Loading rules..." Color.CYAN) ;;
    ' (rules, total_rules) <- load_rules color w (directory a) ;;
    if (total_rules =? 0)%nat then
      print (Color.wrap color "[!] No valid rules loaded" Color.RED) ;;
      sys_exit 1
    else
      print (Color.wrap color
               ("[+] Loaded " ++ str_of_nat total_rules ++ " regex patterns"
                ++ nl) Color.GREEN) ;;
      if given (token a) then
        print (Color.wrap color "Token:" Color.BOLD ++ " "
               ++ Color.wrap color (text_of (token a)) Color.YELLOW) ;;
        matches <- scan_token color (text_of (token a)) rules ;;
        print_summary color 1 matches
      else if given (file a) then
        scan_file color w (text_of (file a)) rules
      else ret tt.

End Program.

(** ** A reference runtime

    For concrete runs: an engine for a fragment of Python's pattern syntax
    (literal characters, [.], bracket sets with ranges and negation, groups,
    alternation and the quantifiers [*], [+], [?], greedy or lazy), matched
    with Brzozowski derivatives.  A counted repeat whose count is too large
    raises [OverflowError], as the parser of [re] does.  What the fragment
    leaves out (escapes, anchors, other counted repeats, group extensions,
    possessive quantifiers) is refused with [OtherError EngineError]: the
    reference runtime gives no answer there, and no concrete run below uses
    such a pattern.  Text is read as UTF-8 by [strip]. *)

Module Ref.

Inductive regex : Type :=
  | Void
  | Eps
  | Class (negated : bool) (ranges : list (ascii * ascii))
  | Cat (r1 r2 : regex)
  | Alt (r1 r2 : regex)
  | Star (r : regex).

Definition in_class (negated : bool) (ranges : list (ascii * ascii))
  (c : ascii) : bool :=
  xorb negated
    (existsb (fun lh => (nat_of_ascii (fst lh) <=? nat_of_ascii c)%nat
                        && (nat_of_ascii c <=? nat_of_ascii (snd lh))%nat)
       ranges).

Fixpoint nullable (r : regex) : bool :=
  match r with
  | Void => false
  | Eps => true
  | Class _ _ => false
  | Cat r1 r2 => nullable r1 && nullable r2
  | Alt r1 r2 => nullable r1 || nullable r2
  | Star _ => true
  end.

Fixpoint deriv (a : ascii) (r : regex) : regex :=
  match r with
  | Void => Void
  | Eps => Void
  | Class negated ranges => if in_class negated ranges a then Eps else Void
  | Cat r1 r2 =>
      if nullable r1 then Alt (Cat (deriv a r1) r2) (deriv a r2)
      else Cat (deriv a r1) r2
  | Alt r1 r2 => Alt (deriv a r1) (deriv a r2)
  | Star r1 => Cat (deriv a r1) (Star r1)
  end.

(** [Pattern.fullmatch]: the whole string is in the language. *)
Fixpoint fullmatch (r : regex) (s : string) : bool :=
  match s with
  | "" => nullable r
  | String a s' => fullmatch (deriv a r) s'
  end.

(** The language of a pattern. *)
Inductive matches : regex -> string -> Prop :=
  | m_eps : matches Eps ""
  | m_class negated ranges c :
      in_class negated ranges c = true ->
      matches (Class negated ranges) (String c "")
  | m_cat r1 r2 s1 s2 :
      matches r1 s1 -> matches r2 s2 -> matches (Cat r1 r2) (s1 ++ s2)
  | m_alt_l r1 r2 s : matches r1 s -> matches (Alt r1 r2) s
  | m_alt_r r1 r2 s : matches r2 s -> matches (Alt r1 r2) s
  | m_star_nil r : matches (Star r) ""
  | m_star_app r s1 s2 :
      matches r s1 -> matches (Star r) s2 -> matches (Star r) (s1 ++ s2).

(** Any text at all. *)
Definition anything : regex := Star (Class true []).

(** The text from index [pos] on. *)
Definition text_from (pos : nat) (s : string) : string :=
  substring pos (String.length s - pos) s.

(** [Pattern.match(s, pos)]: a text in the language starts at [pos]. *)
Definition match_at (r : regex) (s : string) (pos : nat) : bool :=
  fullmatch (Cat r anything) (text_from pos s).

(** [Pattern.search]: the positions of the text are tried in turn. *)
Definition search (r : regex) (s : string) : bool :=
  existsb (match_at r s) (seq 0 (S (String.length s))).

(** The parser's answers: a value and the rest of the input, [re.error], an
    exception of another class, or a construct outside the fragment. *)
Inductive parse (A : Type) : Type :=
  | POk (a : A) (rest : string)
  | PErr
  | PRaise (e : exn)
  | PUnsupported.
Arguments POk {A} a rest.
Arguments PErr {A}.
Arguments PRaise {A} e.
Arguments PUnsupported {A}.

Definition literal (c : ascii) : regex := Class false [(c, c)].

(** [.] is any character but the line feed. *)
Definition dot : regex := Class true [(ascii_of_nat 10, ascii_of_nat 10)].

(** The items of a bracket set, after the opening bracket and the optional
    [^]: a closing bracket ends a set that has an item already. *)
Fixpoint set_items (s : string) (acc : list (ascii * ascii))
  : parse (list (ascii * ascii)) :=
  match s with
  | "" => PErr
  | String c s1 =>
      if Ascii.eqb c "]" && match acc with [] => false | _ => true end
      then POk (rev acc) s1
      else if Ascii.eqb c "\" then PUnsupported
      else
        match s1 with
        | String d s2 =>
            if Ascii.eqb d "-" then
              match s2 with
              | "" => PErr
              | String e s3 =>
                  if Ascii.eqb e "]"
                  then POk (rev (("-"%char, "-"%char) :: (c, c) :: acc)) s3
                  else if Ascii.eqb e "\" then PUnsupported
                  else if (nat_of_ascii e <? nat_of_ascii c)%nat then PErr
                  else set_items s3 ((c, e) :: acc)
              end
            else set_items s1 ((c, c) :: acc)
        | "" => set_items s1 ((c, c) :: acc)
        end
  end.

Definition parse_set (s : string) : parse regex :=
  let '(negated, s1) :=
    match s with
    | String c rest => if Ascii.eqb c "^" then (true, rest) else (false, s)
    | "" => (false, s)
    end in
  match set_items s1 [] with
  | POk ranges rest => POk (Class negated ranges) rest
  | PErr => PErr
  | PRaise e => PRaise e
  | PUnsupported => PUnsupported
  end.

Fixpoint cat_of (items : list (regex * bool)) (tail : regex) : regex :=
  match items with
  | [] => tail
  | (r, _) :: rest => cat_of rest (Cat r tail)
  end.

Definition quantified (q : ascii) (r : regex) : regex :=
  if Ascii.eqb q "*" then Star r
  else if Ascii.eqb q "+" then Cat r (Star r)
  else Alt Eps r.

Definition one_of (c : ascii) (cs : string) : bool :=
  str_contains (String c "") cs.

(** The decimal digits a text starts with, as a number when there is one,
    and what follows them. *)
Fixpoint digits (s : string) (acc : option N) : option N * string :=
  match s with
  | String c s' =>
      if one_of c "0123456789"
      then digits s'
             (Some (10 * match acc with Some n => n | None => 0 end
                    + (N_of_ascii c - 48))%N)
      else (acc, s)
  | "" => (acc, s)
  end.

(** The bounds of a counted repeat, read after its opening brace: [lo] or
    [lo,hi], either of which may be missing, then a closing brace.  A brace
    that opens anything else, or that is closed at once, is a literal. *)
Definition repeat_bounds (s : string) : option (option N * option N) :=
  if String.prefix "}" s then None
  else
    let '(lo, s1) := digits s None in
    let '(hi, s2) :=
      match s1 with
      | String c s1' => if Ascii.eqb c "," then digits s1' None else (lo, s1)
      | "" => (lo, s1)
      end in
    if String.prefix "}" s2 then Some (lo, hi) else None.

(** [_sre.MAXREPEAT]. *)
Definition MAXREPEAT : N := 4294967295.

Definition too_large (bound : option N) : bool :=
  match bound with
  | Some n => (MAXREPEAT <=? n)%N
  | None => false
  end.

(** Alternatives and sequences.  [items] holds the pieces of the sequence
    read so far, last first, each with whether it is a repeat already. *)
Fixpoint parse_alt (fuel : nat) (s : string) : parse regex :=
  match fuel with
  | O => PUnsupported
  | S fuel' =>
      match parse_seq fuel' s [] with
      | POk r rest =>
          match rest with
          | String c rest' =>
              if Ascii.eqb c "|" then
                match parse_alt fuel' rest' with
                | POk r2 rest2 => POk (Alt r r2) rest2
                | other => other
                end
              else POk r rest
          | "" => POk r rest
          end
      | other => other
      end
  end
with parse_seq (fuel : nat) (s : string) (items : list (regex * bool))
  : parse regex :=
  match fuel with
  | O => PUnsupported
  | S fuel' =>
      match s with
      | "" => POk (cat_of items Eps) s
      | String c s1 =>
          if one_of c "|)" then POk (cat_of items Eps) s
          else if one_of c "\^$" then PUnsupported
          else if Ascii.eqb c "{" then
            match repeat_bounds s1 with
            | Some (lo, hi) =>
                if too_large lo || too_large hi then PRaise OverflowError
                else PUnsupported
            | None => parse_seq fuel' s1 ((literal c, false) :: items)
            end
          else if Ascii.eqb c "[" then
            match parse_set s1 with
            | POk r rest => parse_seq fuel' rest ((r, false) :: items)
            | other => other
            end
          else if one_of c "*+?" then
            match items with
            | [] => PErr
            | (_, true) :: _ => PErr
            | (r, false) :: items' =>
                let q := (quantified c r, true) in
                match s1 with
                | String d s2 =>
                    if Ascii.eqb d "?" then parse_seq fuel' s2 (q :: items')
                    else if Ascii.eqb d "+" then PUnsupported
                    else parse_seq fuel' s1 (q :: items')
                | "" => parse_seq fuel' s1 (q :: items')
                end
            end
          else if Ascii.eqb c "." then parse_seq fuel' s1 ((dot, false) :: items)
          else if Ascii.eqb c "(" then
            if String.prefix "?" s1 then PUnsupported
            else
              match parse_alt fuel' s1 with
              | POk r rest =>
                  match rest with
                  | String d rest' =>
                      if Ascii.eqb d ")"
                      then parse_seq fuel' rest' ((r, false) :: items)
                      else PErr
                  | "" => PErr
                  end
              | other => other
              end
          else parse_seq fuel' s1 ((literal c, false) :: items)
      end
  end.

(** [re.compile]: a closing parenthesis left over is unbalanced. *)
Definition compile (s : string) : compiled regex :=
  match parse_alt (2 * String.length s + 2) s with
  | POk r "" => Compiled r
  | POk _ _ => ReError
  | PErr => ReError
  | PRaise e => OtherError e
  | PUnsupported => OtherError EngineError
  end.

Definition str_of_Z (n : Z) : string :=
  NilEmpty.string_of_int (Z.to_int n).

Definition join (sep : string) (parts : list string) : string :=
  match parts with
  | [] => ""
  | p :: rest => fold_left (fun acc x => (acc ++ sep ++ x)%string) rest p
  end.

Definition quoted (s : string) : string := "'" ++ s ++ "'".

(** [repr()]; a string is written between single quotes without escapes, which
    is what Python prints for text that has no quote, backslash or control
    character. *)
Fixpoint repr (v : yaml) : string :=
  match v with
  | YNull => "None"
  | YBool true => "True"
  | YBool false => "False"
  | YInt n => str_of_Z n
  | YStr s => quoted s
  | YBytes b => "b" ++ quoted b
  | YSeq items => "[" ++ join ", " (map repr items) ++ "]"
  | YMap fields =>
      "{" ++ join ", " (map (fun kv : string * yaml =>
                               let (k, x) := kv in
                               (quoted k ++ ": " ++ repr x)%string) fields)
      ++ "}"
  end.

(** [str()]: a string is itself, anything else is its [repr]. *)
Definition str (v : yaml) : string :=
  match v with
  | YStr s => s
  | _ => repr v
  end.

Definition text (codes : list nat) : string :=
  string_of_list_ascii (map ascii_of_nat codes).

(** The characters [str.isspace] accepts, in UTF-8: the ASCII white space
    and separators, U+0085, U+00A0, U+1680, U+2000 to U+200A, U+2028, U+2029,
    U+202F, U+205F and U+3000. *)
Definition spaces : list string :=
  map text
    [[9]; [10]; [11]; [12]; [13]; [28]; [29]; [30]; [31]; [32];
     [194; 133]; [194; 160]; [225; 154; 128];
     [226; 128; 128]; [226; 128; 129]; [226; 128; 130]; [226; 128; 131];
     [226; 128; 132]; [226; 128; 133]; [226; 128; 134]; [226; 128; 135];
     [226; 128; 136]; [226; 128; 137]; [226; 128; 138];
     [226; 128; 168]; [226; 128; 169]; [226; 128; 175];
     [226; 129; 159]; [227; 128; 128]].

Definition reversed (s : string) : string :=
  string_of_list_ascii (rev (list_ascii_of_string s)).

(** What follows the first of the given pieces that the text starts with. *)
Fixpoint after_one (pieces : list string) (s : string) : option string :=
  match pieces with
  | [] => None
  | p :: rest =>
      if String.prefix p s then Some (text_from (String.length p) s)
      else after_one rest s
  end.

Fixpoint drop_leading (fuel : nat) (pieces : list string) (s : string)
  : string :=
  match fuel with
  | O => s
  | S fuel' =>
      match after_one pieces s with
      | Some rest => drop_leading fuel' pieces rest
      | None => s
      end
  end.

Definition lstrip (s : string) : string :=
  drop_leading (String.length s) spaces s.

Definition rstrip (s : string) : string :=
  reversed (drop_leading (String.length s) (map reversed spaces) (reversed s)).

(** [s.strip()]. *)
Definition strip (s : string) : string := rstrip (lstrip s).

End Ref.

#[export, refine] Instance reference : Runtime := {
  pattern := Ref.regex;
  re_compile := Ref.compile;
  re_compile_bytes := Ref.compile;
  re_match_at := Ref.match_at;
  re_search := Ref.search;
  py_str := Ref.str;
  py_strip := Ref.strip
}.
Proof.
  intros p text. unfold Ref.search. rewrite existsb_exists. split.
  - intros (pos & Hin & Hm). apply in_seq in Hin. exists pos.
    split; [ lia | exact Hm ].
  - intros (pos & Hle & Hm). exists pos.
    split; [ apply in_seq; lia | exact Hm ].
Defined.

(** ** What the properties are stated with *)

Section Notions.

Context {R : Runtime}.

(** The (file, rule) pairs of a rule set, in the order the scanner visits
    them. *)
Definition rule_pairs (rules : ruleset) : list (string * rule) :=
  flat_map (fun e : string * list rule => map (pair (fst e)) (snd e)) rules.





(** The number of rules listed in a rule set, over all its files. *)
Definition rule_count (rules : ruleset) : nat :=
  list_sum (map (fun e : string * list rule => length (snd e)) rules).

(** A pattern object that [re.compile] returned for some regex source. *)
Definition compiled_from_source (regex : regex_object pattern) : Prop :=
  match regex with
  | StrPattern p => exists s, re_compile s = Compiled p
  | BytesPattern p => exists b, re_compile_bytes b = Compiled p
  end.

(** Every pattern of the rule set is what [re.compile] returned for some
    regex source. *)
Definition well_compiled (rules : ruleset) : Prop :=
  Forall (fun e : string * list rule =>
            Forall (fun r : rule => compiled_from_source (snd r))
              (snd e)) rules.

(** The entries of a rule file that the loader reads as intended: a mapping
    whose [pattern], when present, is a mapping.  The nested pattern object
    is the value of [pattern], or the empty mapping. *)
Definition pattern_object (item : yaml) : option (list (string * yaml)) :=
  match item with
  | YMap fields =>
      match lookup "pattern" fields with
      | Some (YMap p) => Some p
      | Some _ => None
      | None => Some []
      end
  | _ => None
  end.

(** The value of the [regex] field ([None] when absent). *)
Definition regex_field (p : list (string * yaml)) : yaml :=
  match lookup "regex" p with
  | Some v => v
  | None => YNull
  end.

(** The name a rule gets. *)
Definition name_field (p : list (string * yaml)) : yaml :=
  match lookup "name" p with
  | Some v => v
  | None => YStr "unknown"
  end.



(** The file names the loader's glob accepts. *)
Definition considered (name : string) : bool :=
  negb (ishidden name) && fnmatch "*.y*ml" name.

(** The directory part of the loader's glob pattern: the rules directory
    without the slashes at its end, unless it is made of slashes only. *)
Definition search_root (rules_dir : string) : string :=
  if String.eqb (rstrip_slashes rules_dir) "" then rules_dir
  else rstrip_slashes rules_dir.

(** The directories whose entries the loader's glob lists: the directory
    part itself, or what it expands to when it holds a wildcard. *)
Definition searched_dirs (w : world) (rules_dir : string) : list string :=
  if has_magic (search_root rules_dir)
  then glob_dirs w (search_root rules_dir)
  else [search_root rules_dir].

(** The accepted entries of a directory, each under its joined path. *)
Definition accepted_in (w : world) (d : string) : list (string * loaded) :=
  map (fun e : string * loaded => (os_path_join d (fst e), snd e))
    (filter (fun e : string * loaded => considered (fst e)) (listdir w d)).

(** The state of the loader only grows: every (file, rule) pair of the first
    state is in the second. *)
Definition grows (st st' : ruleset * nat) : Prop :=
  forall fr, In fr (rule_pairs (fst st)) -> In fr (rule_pairs (fst st')).

(** The first line of the run summary. *)
Definition summary_header (color : bool) : string :=
  Color.wrap color "SCAN COMPLETE" Color.BOLD.



(** An event that is neither a scan nor the summary's first line. *)
Definition plain (color : bool) (e : event) : Prop :=
  match e with
  | Stdout s => String.eqb s (summary_header color) = false
  | Usage => True
  | Scanned _ => False
  end.

(** The lines of the driver. *)
Definition loading_line (color : bool) : event :=
  Stdout (Color.wrap color "[*] Loading rules..." Color.CYAN).

Definition no_rules_line (color : bool) : event :=
  Stdout (Color.wrap color "[!] No valid rules loaded" Color.RED).

Definition loaded_line (color : bool) (total : nat) : event :=
  Stdout (Color.wrap color
            ("[+] Loaded " ++ str_of_nat total ++ " regex patterns" ++ nl)
            Color.GREEN).


Definition not_found_line (color : bool) : event :=
  Stdout (Color.wrap color "[!] Input file not found" Color.RED).




(** *** The report of a scan *)




(** *** The rules of a directory *)

(** The rule an entry of the intended shape stands for, if any. *)
Definition item_rule (item : yaml) : option rule :=
  match pattern_object item with
  | Some p =>
      match regex_field p with
      | YStr s =>
          if String.eqb s "" then None
          else
            match re_compile s with
            | Compiled c => Some (name_field p, StrPattern c)
            | _ => None
            end
      | _ => None
      end
  | None => None
  end.

Fixpoint items_rules (items : list yaml) : list rule :=
  match items with
  | [] => []
  | item :: rest =>
      match item_rule item with
      | Some r => r :: items_rules rest
      | None => items_rules rest
      end
  end.

(** The rules a rule file stands for, in the order of its entries. *)
Definition file_rules (content : loaded) : list rule :=
  match content with
  | Parsed (YMap fields) =>
      match lookup "patterns" fields with
      | Some (YSeq items) => items_rules items
      | _ => []
      end
  | _ => []
  end.


(** The warning printed for a file that cannot be opened or parsed. *)
Definition load_warning (color : bool) (entry : string * loaded)
  : list event :=
  match snd entry with
  | LoadFails msg =>
      [Stdout (Color.wrap color
                 ("[!] Failed to load " ++ fst entry ++ ": " ++ msg)
                 Color.RED)]
  | Parsed _ => []
  end.

Definition no_yaml_line (color : bool) (rules_dir : string) : event :=
  Stdout (Color.wrap color ("[!] No YAML files found in " ++ rules_dir)
            Color.RED).

(** *** Runs that differ in colour only *)

(** An event without the text of its line. *)
Definition erase (e : event) : event :=
  match e with
  | Stdout _ => Stdout ""
  | other => other
  end.

(** Two computations that emit events of the same kinds, with the same
    scans, and end the same way. *)
Definition similar {A : Type} (m1 m2 : io A) : Prop :=
  map erase (log m1) = map erase (log m2) /\ result m1 = result m2.

(** The world seen through another kind of standard output. *)
Definition with_isatty (w : world) (tty : bool) : world :=
  {| isatty := tty; listdir := listdir w; glob_dirs := glob_dirs w;
     token_path := token_path w |}.

(** The arguments with [--no-color] set or not. *)
Definition with_no_color (a : args) (nc : bool) : args :=
  {| token := token a; file := file a; directory := directory a;
     no_color := nc |}.

End Notions.

(** ** Concrete rule files and runs *)

Module Sample.

Definition entry (name regex : string) : yaml :=
  YMap [("pattern", YMap [("name", YStr name); ("regex", YStr regex)])].

Definition rule_file (entries : list yaml) : loaded :=
  Parsed (YMap [("patterns", YSeq entries)]).

(** The rule file of the specification's first scenario. *)
Definition email : yaml := entry "email" "[^@]+@[^@]+".





Definition world_of (files : list (string * loaded))
  (tokens : string -> token_source) : world :=
  {| isatty := false;
     listdir := fun d => if String.eqb d "rules" then files else [];
     glob_dirs := fun _ => [];
     token_path := tokens |}.

Definition no_tokens : string -> token_source := fun _ => NoSuchPath.

Definition run (tok fil : option string) : args :=
  {| token := tok; file := fil; directory := "rules"; no_color := false |}.

(** What the reference engine compiles the email regex to. *)
Definition email_pattern : Ref.regex :=
  Eval vm_compute in
    match Ref.compile "[^@]+@[^@]+" with
    | Compiled r => r
    | _ => Ref.Void
    end.


(** The rule the email entry stands for. *)
Definition email_rule : yaml * regex_object Ref.regex :=
  (YStr "email", StrPattern email_pattern).

(** A rules directory with one file, holding the email rule. *)
Definition one_rule (tokens : string -> token_source) : world :=
  world_of [("a.yml", rule_file [email])] tokens.

(** A rules directory without files. *)
Definition no_rules : world := world_of [] no_tokens.

(** A token file of three tokens and two blank lines. *)
Definition tokens_txt : string -> token_source :=
  fun path =>
    if String.eqb path "tokens.txt"
    then Lines [("user@example.com" ++ nl)%string; nl;
                ("  plain  " ++ nl)%string; ("   " ++ nl)%string; "a@b"]
    else NoSuchPath.

End Sample.

(** Every line the program prints outside [print_summary] differs from the
    summary's first line. *)
Ltac plain_line :=
  match goal with
  | |- plain ?c _ => destruct c; reflexivity
  end.

(** ** The reference engine searches for a substring *)

Section ReferenceEngine.

Lemma append_is_empty (s1 s2 : string) :
  (s1 ++ s2)%string = "" -> s1 = "" /\ s2 = "".
Proof. destruct s1; simpl; [ auto | discriminate ]. Qed.

Lemma append_is_cons (s1 s2 : string) (a : ascii) (s : string) :
  (s1 ++ s2)%string = String a s ->
  (s1 = "" /\ s2 = String a s) \/
  (exists s1', s1 = String a s1' /\ s = (s1' ++ s2)%string).
Proof.
  destruct s1 as [ | c s1]; simpl; intros H.
  - now left.
  - injection H as -> <-. right. now exists s1.
Qed.

Lemma nullable_matches (r : Ref.regex) :
  Ref.nullable r = true <-> Ref.matches r "".
Proof.
  split.
  - induction r; simpl; intros H; try discriminate.
    + constructor.
    + apply andb_true_iff in H. destruct H as [H1 H2].
      change "" with ("" ++ "")%string. constructor; auto.
    + apply orb_true_iff in H.
      destruct H; [ apply Ref.m_alt_l | apply Ref.m_alt_r ]; auto.
    + constructor.
  - intros H. remember "" as s eqn:Es.
    induction H; simpl; try discriminate; auto.
    + apply append_is_empty in Es. destruct Es as [-> ->].
      now rewrite IHmatches1, IHmatches2.
    + now rewrite IHmatches.
    + rewrite IHmatches by assumption. apply orb_true_r.
Qed.

(** A non-empty text of a repetition starts with a non-empty piece. *)
Lemma star_cons (r : Ref.regex) (a : ascii) (s : string) :
  Ref.matches (Ref.Star r) (String a s) ->
  exists s1 s2,
    s = (s1 ++ s2)%string /\
    Ref.matches r (String a s1) /\ Ref.matches (Ref.Star r) s2.
Proof.
  intros H. remember (Ref.Star r) as r' eqn:Er.
  remember (String a s) as t eqn:Et.
  induction H; try discriminate.
  injection Er as ->.
  apply append_is_cons in Et.
  destruct Et as [[-> ->] | (s1' & -> & ->)].
  - now apply IHmatches2.
  - now exists s1', s2.
Qed.

Lemma cat_inv (r1 r2 : Ref.regex) (s : string) :
  Ref.matches (Ref.Cat r1 r2) s ->
  exists s1 s2,
    s = (s1 ++ s2)%string /\ Ref.matches r1 s1 /\ Ref.matches r2 s2.
Proof. intros H. inversion H; subst. now exists s1, s2. Qed.

Lemma alt_inv (r1 r2 : Ref.regex) (s : string) :
  Ref.matches (Ref.Alt r1 r2) s -> Ref.matches r1 s \/ Ref.matches r2 s.
Proof. intros H. inversion H; subst; auto. Qed.

Lemma cat_cons (r1 r2 : Ref.regex) (a : ascii) (s1 s2 : string) :
  Ref.matches r1 (String a s1) -> Ref.matches r2 s2 ->
  Ref.matches (Ref.Cat r1 r2) (String a (s1 ++ s2)).
Proof.
  intros H1 H2.
  change (String a (s1 ++ s2)%string) with (String a s1 ++ s2)%string.
  now constructor.
Qed.

Lemma deriv_matches (r : Ref.regex) (a : ascii) (s : string) :
  Ref.matches (Ref.deriv a r) s <-> Ref.matches r (String a s).
Proof.
  revert s. induction r; intros s; simpl.
  - split; intros H; inversion H.
  - split; intros H; inversion H.
  - destruct (Ref.in_class negated ranges a) eqn:E; split; intros H.
    + inversion H; subst. now constructor.
    + inversion H; subst. constructor.
    + inversion H.
    + inversion H; subst. congruence.
  - assert (Hcat : forall t,
              Ref.matches (Ref.Cat (Ref.deriv a r1) r2) t ->
              Ref.matches (Ref.Cat r1 r2) (String a t)).
    { intros t H. apply cat_inv in H. destruct H as (s1 & s2 & -> & H1 & H2).
      apply cat_cons; [ now apply IHr1 | assumption ]. }
    assert (Hinv : Ref.matches (Ref.Cat r1 r2) (String a s) ->
                   (Ref.nullable r1 = true /\ Ref.matches r2 (String a s)) \/
                   Ref.matches (Ref.Cat (Ref.deriv a r1) r2) s).
    { intros H. apply cat_inv in H. destruct H as (s1 & s2 & Es & H1 & H2).
      symmetry in Es. apply append_is_cons in Es.
      destruct Es as [[-> ->] | (s1' & -> & ->)].
      - left. split; [ now apply nullable_matches | assumption ].
      - right. constructor; [ now apply IHr1 | assumption ]. }
    destruct (Ref.nullable r1) eqn:N; split; intros H.
    + apply alt_inv in H. destruct H as [H | H]; [ now apply Hcat | ].
      change (String a s) with ("" ++ String a s)%string.
      constructor; [ now apply nullable_matches | now apply IHr2 ].
    + destruct (Hinv H) as [[_ H2] | H1].
      * apply Ref.m_alt_r. now apply IHr2.
      * now apply Ref.m_alt_l.
    + now apply Hcat.
    + destruct (Hinv H) as [[Hn _] | H1]; [ discriminate | assumption ].
  - split; intros H; apply alt_inv in H; destruct H as [H | H];
      solve [ apply Ref.m_alt_l; now apply IHr1
            | apply Ref.m_alt_r; now apply IHr2 ].
  - split; intros H.
    + apply cat_inv in H. destruct H as (s1 & s2 & -> & H1 & H2).
      change (String a (s1 ++ s2)%string) with (String a s1 ++ s2)%string.
      constructor; [ now apply IHr | assumption ].
    + apply star_cons in H. destruct H as (s1 & s2 & -> & H1 & H2).
      constructor; [ now apply IHr | assumption ].
Qed.

Lemma fullmatch_matches (r : Ref.regex) (s : string) :
  Ref.fullmatch r s = true <-> Ref.matches r s.
Proof.
  revert r. induction s as [ | a s IH]; intros r; simpl.
  - apply nullable_matches.
  - rewrite IH. apply deriv_matches.
Qed.

Lemma anything_matches (s : string) : Ref.matches Ref.anything s.
Proof.
  induction s as [ | c s IH]; [ constructor | ].
  change (String c s) with (String c "" ++ s)%string.
  constructor; [ now constructor | exact IH ].
Qed.

Lemma text_from_start (s : string) : Ref.text_from 0 s = s.
Proof.
  unfold Ref.text_from. rewrite Nat.sub_0_r.
  induction s as [ | c s IH]; [ reflexivity | ].
  simpl. now rewrite IH.
Qed.

Lemma text_from_next (pos : nat) (c : ascii) (s : string) :
  Ref.text_from (S pos) (String c s) = Ref.text_from pos s.
Proof. reflexivity. Qed.

Lemma text_from_app (before rest : string) :
  Ref.text_from (String.length before) (before ++ rest) = rest.
Proof.
  induction before as [ | c before IH]; [ apply text_from_start | ].
  cbn [String.length append]. now rewrite text_from_next.
Qed.

Lemma text_from_split (pos : nat) (s : string) :
  pos <= String.length s ->
  exists before, s = (before ++ Ref.text_from pos s)%string.
Proof.
  revert s. induction pos as [ | pos IH]; intros s Hle.
  - exists "". now rewrite text_from_start.
  - destruct s as [ | c s]; [ simpl in Hle; lia | ].
    destruct (IH s) as (before & Hs); [ simpl in Hle; lia | ].
    exists (String c before). rewrite text_from_next. cbn [append].
    now rewrite <- Hs.
Qed.

Lemma length_app_le (before rest : string) :
  String.length before <= String.length (before ++ rest).
Proof. induction before; simpl; lia. Qed.

(** A match at a position is a text of the language that starts there. *)
Lemma match_at_matches (r : Ref.regex) (s : string) (pos : nat) :
  Ref.match_at r s pos = true <->
  exists found after,
    Ref.text_from pos s = (found ++ after)%string /\ Ref.matches r found.
Proof.
  unfold Ref.match_at. rewrite fullmatch_matches. split.
  - intros H. apply cat_inv in H. destruct H as (s1 & s2 & E & H & _).
    now exists s1, s2.
  - intros (s1 & s2 & -> & H).
    constructor; [ exact H | apply anything_matches ].
Qed.

(** [search] succeeds exactly when some substring of the text, anywhere in
    it, is in the language of the pattern. *)
Lemma search_finds_substring (r : Ref.regex) (s : string) :
  @re_search reference r s = true <->
  exists before found after,
    s = (before ++ found ++ after)%string /\ Ref.matches r found.
Proof.
  rewrite re_search_scans. split.
  - intros (pos & Hle & Hm).
    apply match_at_matches in Hm. destruct Hm as (found & after & E & H).
    destruct (text_from_split pos s Hle) as (before & Hs).
    exists before, found, after. split; [ | exact H ].
    now rewrite <- E.
  - intros (before & found & after & -> & H).
    exists (String.length before). split; [ apply length_app_le | ].
    apply match_at_matches. exists found, after.
    split; [ apply text_from_app | exact H ].
Qed.

End ReferenceEngine.

(** ** The monad's equations *)

Section Monad.

Lemma bind_ret {A B : Type} (a : A) (f : A -> io B) : bind (ret a) f = f a.
Proof. unfold bind, ret. destruct (f a). reflexivity. Qed.


Lemma result_bind {A B : Type} (m : io A) (f : A -> io B) :
  result (bind m f) =
  match result m with
  | Returned a => result (f a)
  | Raised e => Raised e
  end.
Proof.
  destruct m as [l [a | e]]; simpl; [ | reflexivity ].
  destruct (f a); reflexivity.
Qed.

Lemma log_bind {A B : Type} (m : io A) (f : A -> io B) :
  log (bind m f) =
  log m ++ match result m with
           | Returned a => log (f a)
           | Raised _ => []
           end.
Proof.
  destruct m as [l [a | e]]; simpl.
  - destruct (f a); reflexivity.
  - now rewrite app_nil_r.
Qed.

Lemma io_eta {A : Type} (m : io A) : m = (log m, result m).
Proof. now destruct m. Qed.


Lemma for_each_cons {A St : Type} (x : A) (xs : list A)
  (body : A -> St -> io St) (st : St) :
  for_each (x :: xs) body st = bind (body x st) (for_each xs body).
Proof. reflexivity. Qed.


(** A loop whose body returns leaves a property of the state invariant. *)
Lemma for_each_invariant {A St : Type} (P : St -> Prop) (xs : list A)
  (body : A -> St -> io St) :
  (forall x st st', In x xs -> P st ->
                    result (body x st) = Returned st' -> P st') ->
  forall st st', P st -> result (for_each xs body st) = Returned st' -> P st'.
Proof.
  induction xs as [ | x xs IH]; intros Hbody st st' Hst Hres.
  - simpl in Hres. injection Hres as <-. exact Hst.
  - rewrite for_each_cons, result_bind in Hres.
    destruct (result (body x st)) as [st1 | e] eqn:E; [ | discriminate ].
    apply (IH (fun y s s' Hy => Hbody y s s' (or_intror Hy)) st1 st');
      [ | exact Hres ].
    apply (Hbody x st st1); [ now left | exact Hst | exact E ].
Qed.

(** Every event of a loop satisfies what every event of its body does. *)
Lemma for_each_log {A St : Type} (P : event -> Prop) (xs : list A)
  (body : A -> St -> io St) :
  (forall x st, Forall P (log (body x st))) ->
  forall st, Forall P (log (for_each xs body st)).
Proof.
  intros Hbody. induction xs as [ | x xs IH]; intros st.
  - constructor.
  - rewrite for_each_cons, log_bind. apply Forall_app. split.
    + apply Hbody.
    + destruct (result (body x st)); [ apply IH | constructor ].
Qed.

(** In a loop that returns, every element was visited: its body returned,
    what it emitted is in the log of the loop, and the state it left is
    related to the final one by any preorder the body respects. *)
Lemma for_each_visits {A St : Type} (Q : St -> St -> Prop) (xs : list A)
  (body : A -> St -> io St) :
  (forall s, Q s s) ->
  (forall s1 s2 s3, Q s1 s2 -> Q s2 s3 -> Q s1 s3) ->
  (forall x s s', result (body x s) = Returned s' -> Q s s') ->
  forall st st', result (for_each xs body st) = Returned st' ->
  forall x, In x xs ->
  exists s s',
    result (body x s) = Returned s' /\ Q s' st' /\
    (forall e, In e (log (body x s)) -> In e (log (for_each xs body st))).
Proof.
  intros Hrefl Htrans Hbody.
  induction xs as [ | y xs IH]; intros st st' Hres x Hin; [ destruct Hin | ].
  rewrite for_each_cons, result_bind in Hres.
  destruct (result (body y st)) as [st1 | e] eqn:E; [ | discriminate ].
  destruct Hin as [-> | Hin].
  - exists st, st1. split; [ exact E | split ].
    + refine (for_each_invariant (Q st1) xs body _ st1 st' (Hrefl st1) Hres).
      intros z s s' _ Hs Hz. apply (Htrans _ s); [ exact Hs | ].
      now apply (Hbody z).
    + intros e He. rewrite for_each_cons, log_bind. apply in_or_app.
      now left.
  - destruct (IH st1 st' Hres x Hin) as (s & s' & Hs & Hq & Hlog).
    exists s, s'. split; [ exact Hs | split; [ exact Hq | ] ].
    intros e He. rewrite for_each_cons, log_bind, E. apply in_or_app.
    right. now apply Hlog.
Qed.


Lemma bind_log_Forall {A B : Type} (P : event -> Prop) (m : io A)
  (f : A -> io B) :
  Forall P (log m) -> (forall a, Forall P (log (f a))) ->
  Forall P (log (bind m f)).
Proof.
  intros Hm Hf. rewrite log_bind. apply Forall_app. split; [ exact Hm | ].
  destruct (result m); [ apply Hf | constructor ].
Qed.

End Monad.

(** ** The scanner *)

Section Scanner.

Context {R : Runtime}.











End Scanner.

(** ** The rule loader *)

Section Loader.

Context {R : Runtime}.

Lemma bind_lift_returned {A B : Type} (a : A) (f : A -> io B) :
  bind (lift (Returned a)) f = f a.
Proof. apply bind_ret. Qed.

(** What [load_item] does with an entry of the intended shape. *)
Lemma load_item_shaped (file : string) (item : yaml)
  (p : list (string * yaml)) (rules : ruleset) (total : nat) :
  pattern_object item = Some p ->
  load_item file item (rules, total) =
  if negb (truthy (regex_field p)) then ret (rules, total)
  else
    match regex_field p with
    | YStr s =>
        match re_compile s with
        | Compiled c =>
            ret (dict_append rules file (name_field p, StrPattern c), S total)
        | ReError => ret (rules, total)
        | OtherError e => raise e
        end
    | YBytes b =>
        match re_compile_bytes b with
        | Compiled c =>
            ret (dict_append rules file (name_field p, BytesPattern c),
                 S total)
        | ReError => ret (rules, total)
        | OtherError e => raise e
        end
    | _ => raise TypeError
    end.
Proof.
  intros Hp. destruct item as [ | | | | | | fields]; try discriminate.
  unfold pattern_object in Hp. unfold load_item, py_get at 1.
  rewrite bind_lift_returned.
  assert (Hobj : match lookup "pattern" fields with
                 | Some x => x
                 | None => YMap []
                 end = YMap p).
  { destruct (lookup "pattern" fields) as [v | ].
    - destruct v; try discriminate. now injection Hp as ->.
    - now injection Hp as <-. }
  rewrite Hobj. unfold py_get.
  rewrite !bind_lift_returned. reflexivity.
Qed.

(** Whatever the entry, [load_item] either raises, or leaves the state as it
    is, or appends one compiled rule to the file's list and counts it. *)
Lemma load_item_cases (file : string) (item : yaml) (st st' : ruleset * nat) :
  result (load_item file item st) = Returned st' ->
  st' = st \/
  exists name regex,
    compiled_from_source regex /\
    st' = (dict_append (fst st) file (name, regex), S (snd st)).
Proof.
  destruct st as [rules total]. unfold load_item.
  destruct (py_get item "pattern" (YMap [])) as [obj | e];
    [ rewrite bind_lift_returned | discriminate ].
  destruct (py_get obj "name" (YStr "unknown")) as [name | e];
    [ rewrite bind_lift_returned | discriminate ].
  destruct (py_get obj "regex" YNull) as [regex | e];
    [ rewrite bind_lift_returned | discriminate ].
  destruct (negb (truthy regex)).
  - intros H. injection H as <-. now left.
  - destruct regex as [ | | | s | b | | ]; try discriminate.
    + destruct (re_compile s) as [c | | e] eqn:E; try discriminate.
      * intros H. injection H as <-. right.
        exists name, (StrPattern c). split; [ now exists s | reflexivity ].
      * intros H. injection H as <-. now left.
    + destruct (re_compile_bytes b) as [c | | e] eqn:E; try discriminate.
      * intros H. injection H as <-. right.
        exists name, (BytesPattern c). split; [ now exists b | reflexivity ].
      * intros H. injection H as <-. now left.
Qed.

Lemma load_item_log (file : string) (item : yaml) (st : ruleset * nat) :
  log (load_item file item st) = [].
Proof.
  destruct st as [rules total]. unfold load_item.
  destruct (py_get item "pattern" (YMap [])) as [obj | e];
    [ rewrite bind_lift_returned | reflexivity ].
  destruct (py_get obj "name" (YStr "unknown")) as [name | e];
    [ rewrite bind_lift_returned | reflexivity ].
  destruct (py_get obj "regex" YNull) as [regex | e];
    [ rewrite bind_lift_returned | reflexivity ].
  destruct (negb (truthy regex)); [ reflexivity | ].
  destruct regex as [ | | | s | b | | ]; try reflexivity.
  - destruct (re_compile s); reflexivity.
  - destruct (re_compile_bytes b); reflexivity.
Qed.

Lemma rule_count_append (rules : ruleset) (file : string) (r : rule) :
  rule_count (dict_append rules file r) = S (rule_count rules).
Proof.
  unfold rule_count.
  induction rules as [ | [f rs] rules IH]; [ reflexivity | ].
  simpl. destruct (String.eqb f file); simpl.
  - rewrite length_app. simpl. lia.
  - rewrite IH. lia.
Qed.

Lemma well_compiled_append (rules : ruleset) (file : string) (r : rule) :
  well_compiled rules ->
  compiled_from_source (snd r) ->
  well_compiled (dict_append rules file r).
Proof.
  unfold well_compiled. intros H Hr.
  induction H as [ | [f rs] rules Hrs Hrules IH]; simpl.
  - repeat constructor. exact Hr.
  - destruct (String.eqb f file); constructor; simpl in *; auto.
    apply Forall_app. split; [ exact Hrs | now constructor ].
Qed.

Lemma keys_append (rules : ruleset) (file : string) (r : rule) (k : string) :
  In k (map fst (dict_append rules file r)) ->
  k = file \/ In k (map fst rules).
Proof.
  induction rules as [ | [f rs] rules IH]; simpl.
  - intros [H | []]. now left.
  - destruct (String.eqb f file); simpl; intros [H | H]; auto.
    destruct (IH H); auto.
Qed.

(** What [load_file] does with a document of the intended shape. *)
Lemma load_file_shaped (color : bool) (file : string)
  (fields : list (string * yaml)) (items : list yaml) (st : ruleset * nat) :
  lookup "patterns" fields = Some (YSeq items) ->
  load_file color (file, Parsed (YMap fields)) st
  = for_each items (load_item file) st.
Proof.
  intros H. unfold load_file.
  assert (Ht : truthy (YMap fields) = true)
    by (destruct fields; [ discriminate | reflexivity ]).
  rewrite Ht. cbn [negb]. unfold py_contains, py_getitem. rewrite H.
  rewrite !bind_lift_returned. cbn [negb py_iter].
  now rewrite bind_lift_returned.
Qed.

(** A property of the state that [load_item] keeps is kept by [load_file]. *)
Lemma load_file_invariant (P : ruleset * nat -> Prop) (color : bool)
  (entry : string * loaded) :
  (forall item st st', P st ->
     result (load_item (fst entry) item st) = Returned st' -> P st') ->
  forall st st', P st ->
    result (load_file color entry st) = Returned st' -> P st'.
Proof.
  intros Hitem st st' Hst. destruct entry as [file content]. unfold load_file.
  destruct content as [msg | data].
  - rewrite result_bind. simpl. intros H. injection H as <-. exact Hst.
  - destruct (negb (truthy data)).
    { intros H. injection H as <-. exact Hst. }
    destruct (py_contains "patterns" data) as [has | e];
      [ rewrite bind_lift_returned | discriminate ].
    destruct (negb has).
    { intros H. injection H as <-. exact Hst. }
    destruct (py_getitem data "patterns") as [entries | e];
      [ rewrite bind_lift_returned | discriminate ].
    destruct (py_iter entries) as [items | e];
      [ rewrite bind_lift_returned | discriminate ].
    apply for_each_invariant; [ | exact Hst ].
    intros item s s' _. apply Hitem.
Qed.

(** A property of the state that every rule file keeps is established by
    [load_rules], which starts from the empty rule set. *)
Lemma load_rules_invariant (P : ruleset * nat -> Prop) (color : bool)
  (w : world) (rules_dir : string) :
  P ([], 0) ->
  (forall entry item st st',
     In entry (glob_glob w (os_path_join rules_dir "*.y*ml")) -> P st ->
     result (load_item (fst entry) item st) = Returned st' -> P st') ->
  forall st', result (load_rules color w rules_dir) = Returned st' -> P st'.
Proof.
  intros H0 Hitem st'. unfold load_rules.
  destruct (glob_glob w (os_path_join rules_dir "*.y*ml"))
    as [ | e files] eqn:E.
  - rewrite result_bind. simpl. intros H. injection H as <-. exact H0.
  - apply for_each_invariant; [ | exact H0 ].
    intros entry st st1 Hin Hst.
    apply load_file_invariant; [ | exact Hst ].
    intros item s s'. now apply Hitem.
Qed.

Lemma pairs_append (rules : ruleset) (file : string) (r : rule)
  (fr : string * rule) :
  fr = (file, r) \/ In fr (rule_pairs rules) ->
  In fr (rule_pairs (dict_append rules file r)).
Proof.
  unfold rule_pairs.
  induction rules as [ | [f rs] rules IH]; cbn [dict_append flat_map].
  - intros [-> | []]. now left.
  - destruct (String.eqb f file) eqn:E; cbn [flat_map fst snd];
      rewrite !in_app_iff; intros [-> | [H | H]].
    + apply String.eqb_eq in E. subst f. left.
      rewrite map_app. apply in_or_app. right. now left.
    + left. rewrite map_app. apply in_or_app. now left.
    + now right.
    + right. apply IH. now left.
    + now left.
    + right. apply IH. now right.
Qed.

Lemma grows_refl (st : ruleset * nat) : grows st st.
Proof. intros fr H. exact H. Qed.

Lemma grows_trans (s1 s2 s3 : ruleset * nat) :
  grows s1 s2 -> grows s2 s3 -> grows s1 s3.
Proof. intros H1 H2 fr H. apply H2, H1, H. Qed.

Lemma load_item_grows (file : string) (item : yaml) (st st' : ruleset * nat) :
  result (load_item file item st) = Returned st' -> grows st st'.
Proof.
  intros H. destruct (load_item_cases _ _ _ _ H) as [-> | (n & c & _ & ->)].
  - apply grows_refl.
  - intros fr Hfr. apply pairs_append. now right.
Qed.

Lemma load_file_grows (color : bool) (entry : string * loaded)
  (st st' : ruleset * nat) :
  result (load_file color entry st) = Returned st' -> grows st st'.
Proof.
  apply (load_file_invariant (grows st) color entry); [ | apply grows_refl ].
  intros item s s' Hs Hitem.
  apply (grows_trans _ s); [ exact Hs | now apply load_item_grows in Hitem ].
Qed.

(** An entry that stands for a rule appends that rule. *)
Lemma load_item_rule (file : string) (item : yaml) (r : rule)
  (rules : ruleset) (total : nat) :
  item_rule item = Some r ->
  load_item file item (rules, total)
  = ret (dict_append rules file r, S total).
Proof.
  unfold item_rule. intros H.
  destruct (pattern_object item) as [p | ] eqn:Hp; [ | discriminate ].
  rewrite (load_item_shaped file item p rules total Hp).
  destruct (regex_field p) as [ | | | s | | | ]; try discriminate.
  cbn [truthy]. destruct (String.eqb s ""); [ discriminate | ].
  cbn [negb]. destruct (re_compile s) as [c | | e]; try discriminate.
  now injection H as <-.
Qed.

Lemma items_rules_In (items : list yaml) (r : rule) :
  In r (items_rules items) ->
  exists item, In item items /\ item_rule item = Some r.
Proof.
  induction items as [ | item items IH]; cbn [items_rules]; [ intros [] | ].
  destruct (item_rule item) as [r' | ] eqn:E.
  - intros [-> | H].
    + exists item. split; [ now left | exact E ].
    + destruct (IH H) as (i & Hi & Hr). exists i.
      split; [ now right | exact Hr ].
  - intros H. destruct (IH H) as (i & Hi & Hr).
    exists i. split; [ now right | exact Hr ].
Qed.

(** When the loop over the files returns, every rule that a visited file
    stands for is in the rule set, under the path of the file. *)
Lemma load_files_hold_rules (color : bool) (files : list (string * loaded))
  (st st' : ruleset * nat) (f : string) (content : loaded) (r : rule) :
  result (for_each files (load_file color) st) = Returned st' ->
  In (f, content) files ->
  In r (file_rules content) ->
  In (f, r) (rule_pairs (fst st')).
Proof.
  intros Hres Hin Hr.
  destruct (for_each_visits grows files (load_file color) grows_refl
              grows_trans
              (fun x s s' => load_file_grows color x s s')
              st st' Hres (f, content) Hin)
    as (s & s' & Hfile & Hgrow & _).
  apply Hgrow.
  destruct content as [msg | data]; [ destruct Hr | ].
  destruct data as [ | | | | | | fields]; try destruct Hr.
  cbn [file_rules] in Hr.
  destruct (lookup "patterns" fields) as [v | ] eqn:Hl; [ | destruct Hr ].
  destruct v as [ | | | | | items | ]; try destruct Hr.
  apply items_rules_In in Hr. destruct Hr as (item & Hitem & Hrule).
  rewrite (load_file_shaped color f fields items s Hl) in Hfile.
  destruct (for_each_visits grows items (load_item f) grows_refl grows_trans
              (fun x s1 s2 => load_item_grows f x s1 s2)
              s s' Hfile item Hitem)
    as ([rules1 total1] & s2 & Hstep & Hgrow2 & _).
  apply Hgrow2.
  rewrite (load_item_rule f item r rules1 total1 Hrule) in Hstep.
  injection Hstep as <-. cbn [fst]. apply pairs_append. now left.
Qed.

(** When the loop over the files returns, the warning of every visited file
    that failed to load was printed. *)
Lemma load_files_print_warning (color : bool)
  (files : list (string * loaded)) (st st' : ruleset * nat) (f msg : string) :
  result (for_each files (load_file color) st) = Returned st' ->
  In (f, LoadFails msg) files ->
  In (Stdout (Color.wrap color ("[!] Failed to load " ++ f ++ ": " ++ msg)
                Color.RED))
     (log (for_each files (load_file color) st)).
Proof.
  intros Hres Hin.
  destruct (for_each_visits grows files (load_file color) grows_refl
              grows_trans
              (fun x s s' => load_file_grows color x s s')
              st st' Hres (f, LoadFails msg) Hin)
    as (s & s' & _ & _ & Hlog).
  apply Hlog. now left.
Qed.

End Loader.

Section LoaderProperties.

Context {R : Runtime}.



(** C6.  Whenever [load_rules] returns, the total it returns is the sum,
    over the files of the returned rule set, of the number of rules listed
    for the file, and every rule of the set carries a pattern that
    [re.compile] produced. *)
Theorem load_rules_total_is_rule_count (color : bool) (w : world)
  (rules_dir : string) (rules : ruleset) (total : nat) :
  result (load_rules color w rules_dir) = Returned (rules, total) ->
  total = rule_count rules /\ well_compiled rules.
Proof.
  intros H.
  apply (load_rules_invariant
           (fun st => snd st = rule_count (fst st) /\ well_compiled (fst st))
           color w rules_dir) in H; [ exact H | | ].
  - split; [ reflexivity | constructor ].
  - intros entry item st st' _ [Hn Hw] Hres.
    destruct (load_item_cases _ _ _ _ Hres) as [-> | (name & c & Hc & ->)].
    + now split.
    + simpl. split.
      * now rewrite rule_count_append, Hn.
      * apply well_compiled_append; [ exact Hw | exact Hc ].
Qed.

End LoaderProperties.

(** ** Which files the loader reads *)

Section Glob.

Lemma fnmatch_empty (name : string) : fnmatch "" name = true <-> name = "".
Proof. destruct name; simpl; split; congruence. Qed.

Lemma fnmatch_star_unfold (pat name : string) :
  fnmatch (String "*" pat) name
  = fnmatch pat name
    || match name with
       | "" => false
       | String _ name' => fnmatch (String "*" pat) name'
       end.
Proof. destruct name; reflexivity. Qed.

Lemma fnmatch_star (pat name : string) :
  fnmatch (String "*" pat) name = true <->
  exists a b, name = (a ++ b)%string /\ fnmatch pat b = true.
Proof.
  split.
  - induction name as [ | c name IH]; rewrite fnmatch_star_unfold;
      intros H; apply orb_true_iff in H; destruct H as [H | H].
    + now exists "", "".
    + discriminate.
    + now exists "", (String c name).
    + destruct (IH H) as (a & b & -> & Hb).
      now exists (String c a), b.
  - intros (a & b & -> & Hb). induction a as [ | c a IH]; cbn [append];
      rewrite fnmatch_star_unfold; apply orb_true_iff.
    + now left.
    + right. exact IH.
Qed.

Lemma fnmatch_char (c : ascii) (pat name : string) :
  c <> "*"%char -> c <> "?"%char ->
  (fnmatch (String c pat) name = true <->
   exists name', name = String c name' /\ fnmatch pat name' = true).
Proof.
  intros Hs Hq. apply Ascii.eqb_neq in Hs, Hq. simpl. rewrite Hs, Hq.
  destruct name as [ | d name]; split.
  - discriminate.
  - intros (n & H & _). discriminate.
  - intros H. apply andb_true_iff in H. destruct H as [H1 H2].
    apply Ascii.eqb_eq in H1. subst d. now exists name.
  - intros (n & H & Hn). injection H as -> ->.
    now rewrite Ascii.eqb_refl.
Qed.

(** The names the pattern accepts: anything, then [.y], anything, then a
    final [ml]. *)
Lemma fnmatch_yaml (name : string) :
  fnmatch "*.y*ml" name = true <->
  exists a b, name = (a ++ ".y" ++ b ++ "ml")%string.
Proof.
  rewrite fnmatch_star. split.
  - intros (a & r & -> & H).
    apply fnmatch_char in H; [ | discriminate | discriminate ].
    destruct H as (r1 & -> & H).
    apply fnmatch_char in H; [ | discriminate | discriminate ].
    destruct H as (r2 & -> & H).
    apply fnmatch_star in H. destruct H as (b & r3 & -> & H).
    apply fnmatch_char in H; [ | discriminate | discriminate ].
    destruct H as (r4 & -> & H).
    apply fnmatch_char in H; [ | discriminate | discriminate ].
    destruct H as (r5 & -> & H).
    apply fnmatch_empty in H. subst r5. now exists a, b.
  - intros (a & b & ->). exists a, (".y" ++ b ++ "ml")%string.
    split; [ reflexivity | ].
    apply fnmatch_char; [ discriminate | discriminate | ].
    eexists. split; [ reflexivity | ].
    apply fnmatch_char; [ discriminate | discriminate | ].
    eexists. split; [ reflexivity | ].
    apply fnmatch_star. exists b, "ml". split; [ reflexivity | ].
    reflexivity.
Qed.

Lemma str_endswith_app (name suffix : string) :
  str_endswith name suffix = true -> exists a, name = (a ++ suffix)%string.
Proof.
  induction name as [ | c name IH]; cbn [str_endswith]; intros H;
    apply orb_true_iff in H; destruct H as [H | H]; try discriminate.
  - apply String.eqb_eq in H. subst suffix. now exists "".
  - apply String.eqb_eq in H. subst suffix. now exists "".
  - destruct (IH H) as (a & ->). now exists (String c a).
Qed.

Lemma filter_idem {A : Type} (f : A -> bool) (l : list A) :
  filter f (filter f l) = filter f l.
Proof.
  induction l as [ | x l IH]; [ reflexivity | ].
  simpl. destruct (f x) eqn:E; simpl; [ now rewrite E, IH | exact IH ].
Qed.

Lemma prefix_one (c : ascii) (n : string) :
  String.prefix (String c "") (String c n) = true.
Proof.
  cbn [String.prefix]. destruct (ascii_dec c c) as [_ | Hc];
    [ now destruct n | now destruct Hc ].
Qed.

Lemma has_slash_app (a n : string) : has_slash (a ++ String "/" n) = true.
Proof.
  unfold has_slash. induction a as [ | c a IH]; cbn [append str_contains].
  - now rewrite prefix_one.
  - rewrite IH. apply orb_true_r.
Qed.

Lemma basename_after_slash (a n : string) :
  has_slash n = false -> os_path_basename (a ++ String "/" n) = n.
Proof.
  intros Hn. induction a as [ | c a IH]; cbn [append os_path_basename].
  - now rewrite Hn.
  - now rewrite has_slash_app.
Qed.

Lemma basename_plain (n : string) :
  has_slash n = false -> os_path_basename n = n.
Proof.
  destruct n as [ | c n]; [ reflexivity | ].
  intros H. cbn [os_path_basename].
  unfold has_slash in H. cbn [str_contains] in H.
  apply orb_false_iff in H. destruct H as [Hc Hn].
  fold (has_slash n) in Hn. rewrite Hn.
  destruct (Ascii.eqb c "/") eqn:E; [ | reflexivity ].
  apply Ascii.eqb_eq in E. subst c. now rewrite prefix_one in Hc.
Qed.

Lemma append_cons_assoc (a : string) (c : ascii) (n : string) :
  ((a ++ String c "") ++ n)%string = (a ++ String c n)%string.
Proof.
  induction a as [ | d a IH]; cbn [append]; [ reflexivity | now rewrite IH ].
Qed.

Lemma upto_last_slash_app (a n : string) :
  has_slash n = false ->
  upto_last_slash (a ++ String "/" n) = (a ++ "/")%string.
Proof.
  intros Hn. induction a as [ | c a IH]; cbn [append upto_last_slash].
  - now rewrite Hn.
  - now rewrite has_slash_app, IH.
Qed.

Lemma rstrip_slashes_app (a : string) :
  rstrip_slashes (a ++ "/") = rstrip_slashes a.
Proof.
  induction a as [ | c a IH]; [ reflexivity | ].
  cbn [append rstrip_slashes]. now rewrite IH.
Qed.

(** Only the empty path and the paths that end with a slash lose everything
    when their final slashes are removed. *)
Lemma rstrip_slashes_empty (d : string) :
  rstrip_slashes d = "" -> d = "" \/ str_endswith d "/" = true.
Proof.
  induction d as [ | c d IH]; [ now left | ].
  cbn [rstrip_slashes]. intros H. right.
  destruct (rstrip_slashes d) as [ | x r]; [ | discriminate ].
  destruct (Ascii.eqb c "/") eqn:E; [ | discriminate ].
  apply Ascii.eqb_eq in E. subst c.
  destruct (IH eq_refl) as [-> | Hd]; [ reflexivity | ].
  cbn [str_endswith]. rewrite Hd. apply orb_true_r.
Qed.

(** A path that is not empty and does not end with a slash has no slash to
    lose. *)
Lemma rstrip_slashes_plain (d : string) :
  d <> "" -> str_endswith d "/" = false -> rstrip_slashes d = d.
Proof.
  induction d as [ | c d IH]; [ congruence | ].
  intros _ H. cbn [str_endswith] in H. apply orb_false_iff in H.
  destruct H as [Hc Hd]. cbn [rstrip_slashes].
  destruct d as [ | c' d].
  - cbn [rstrip_slashes]. destruct (Ascii.eqb c "/") eqn:E; [ | reflexivity ].
    apply Ascii.eqb_eq in E. subst c. discriminate.
  - rewrite IH; [ reflexivity | discriminate | exact Hd ].
Qed.

Lemma os_path_split_app (a n : string) :
  has_slash n = false ->
  os_path_split (a ++ String "/" n)
  = (if String.eqb (rstrip_slashes a) "" then (a ++ "/")%string
     else rstrip_slashes a, n).
Proof.
  intros Hn. unfold os_path_split.
  rewrite (upto_last_slash_app a n Hn), (basename_after_slash a n Hn).
  now rewrite rstrip_slashes_app.
Qed.

(** The loader's pattern splits into the directory part of the rules
    directory and the wildcard for the names. *)
Lemma os_path_split_pattern (rules_dir : string) :
  os_path_split (os_path_join rules_dir "*.y*ml")
  = (search_root rules_dir, "*.y*ml").
Proof.
  unfold os_path_join, search_root.
  change (String.prefix "/" "*.y*ml") with false. cbv iota.
  destruct (String.eqb rules_dir "") eqn:E0.
  { apply String.eqb_eq in E0. subst rules_dir. reflexivity. }
  destruct (str_endswith rules_dir "/") eqn:E.
  - apply str_endswith_app in E. destruct E as (a & ->).
    rewrite append_cons_assoc, os_path_split_app by reflexivity.
    now rewrite rstrip_slashes_app.
  - change (rules_dir ++ "/" ++ "*.y*ml")%string
      with (rules_dir ++ String "/" "*.y*ml")%string.
    rewrite os_path_split_app by reflexivity.
    destruct (String.eqb (rstrip_slashes rules_dir) "") eqn:Er;
      [ | reflexivity ].
    apply String.eqb_eq in Er. apply rstrip_slashes_empty in Er.
    destruct Er as [-> | Er]; [ discriminate | congruence ].
Qed.

Context {R : Runtime}.

(** The files the loader's glob returns. *)
Lemma glob_yaml (w : world) (rules_dir : string) :
  glob_glob w (os_path_join rules_dir "*.y*ml")
  = flat_map (accepted_in w) (searched_dirs w rules_dir).
Proof.
  unfold glob_glob. rewrite os_path_split_pattern. reflexivity.
Qed.

Lemma considered_names (name : string) :
  considered name = true <->
  ishidden name = false /\
  exists a b, name = (a ++ ".y" ++ b ++ "ml")%string.
Proof.
  unfold considered.
  rewrite andb_true_iff, negb_true_iff, fnmatch_yaml. reflexivity.
Qed.

Lemma accepted_in_entry (w : world) (d f : string) (content : loaded) :
  In (f, content) (accepted_in w d) <->
  exists name,
    In (name, content) (listdir w d) /\ considered name = true /\
    f = os_path_join d name.
Proof.
  unfold accepted_in. rewrite in_map_iff. split.
  - intros ([name c] & E & Hin). cbn [fst snd] in E. injection E as <- <-.
    apply filter_In in Hin. destruct Hin as [Hin Hc]. now exists name.
  - intros (name & Hin & Hc & ->). exists (name, content).
    split; [ reflexivity | ]. apply filter_In. now split.
Qed.

(** C5 (as amended).  The files [load_rules] reads are exactly the entries,
    directly inside the rules directory, whose names the glob [*.y*ml]
    accepts and that are not hidden: the name does not begin with a dot and
    is some text, then [.y], some text, then a final [ml].  The directory is
    the rules directory without the slashes at its end; when its path holds
    a wildcard, it is each directory that path expands to.  Every entry that
    is not hidden and ends in [.yml] or [.yaml] is accepted; the result of
    [load_rules] is the same as in directories that hold the accepted
    entries only; and when [load_rules] returns, every file of the rule set
    is an accepted entry, and every accepted entry was read: the warning of
    one that failed to load was printed, and every rule it stands for is in
    the rule set under its path. *)
Theorem load_rules_reads_glob_matches (color : bool) (w : world)
  (rules_dir : string) :
  glob_glob w (os_path_join rules_dir "*.y*ml")
  = flat_map (accepted_in w) (searched_dirs w rules_dir)
  /\
  (rules_dir <> "" -> str_endswith rules_dir "/" = false ->
   has_magic rules_dir = false ->
   searched_dirs w rules_dir = [rules_dir])
  /\
  (forall name,
     considered name = true <->
     ishidden name = false /\
     exists a b, name = (a ++ ".y" ++ b ++ "ml")%string)
  /\
  (forall name,
     ishidden name = false ->
     str_endswith name ".yml" = true \/ str_endswith name ".yaml" = true ->
     considered name = true)
  /\
  (forall w',
     searched_dirs w' rules_dir = searched_dirs w rules_dir ->
     (forall d, In d (searched_dirs w rules_dir) ->
        listdir w' d
        = filter (fun e : string * loaded => considered (fst e))
            (listdir w d)) ->
     load_rules color w' rules_dir = load_rules color w rules_dir)
  /\
  (forall rules total,
     result (load_rules color w rules_dir) = Returned (rules, total) ->
     (forall f, In f (map fst rules) ->
        exists d name content,
          In d (searched_dirs w rules_dir) /\
          In (name, content) (listdir w d) /\
          considered name = true /\
          f = os_path_join d name)
     /\
     (forall d name content,
        In d (searched_dirs w rules_dir) ->
        In (name, content) (listdir w d) ->
        considered name = true ->
        (forall msg,
           content = LoadFails msg ->
           In (Stdout (Color.wrap color
                         ("[!] Failed to load " ++ os_path_join d name
                          ++ ": " ++ msg) Color.RED))
              (log (load_rules color w rules_dir)))
        /\
        (forall r,
           In r (file_rules content) ->
           In (os_path_join d name, r) (rule_pairs rules)))).
Proof.
  split; [ apply glob_yaml | ].
  split; [ | split; [ exact considered_names | split; [ | split ] ] ].
  - intros Hne Hend Hmagic. unfold searched_dirs, search_root.
    rewrite (rstrip_slashes_plain rules_dir Hne Hend).
    apply String.eqb_neq in Hne. now rewrite Hne, Hmagic.
  - intros name Hh He. apply considered_names. split; [ exact Hh | ].
    destruct He as [He | He]; apply str_endswith_app in He;
      destruct He as (a & ->).
    + exists a, "". reflexivity.
    + exists a, "a". reflexivity.
  - intros w' Hdirs Hlist. unfold load_rules. cbv zeta.
    rewrite !glob_yaml, Hdirs.
    assert (E : flat_map (accepted_in w') (searched_dirs w rules_dir)
                = flat_map (accepted_in w) (searched_dirs w rules_dir)).
    { revert Hlist. generalize (searched_dirs w rules_dir).
      induction l as [ | d dirs IH]; intros Hlist; [ reflexivity | ].
      cbn [flat_map]. rewrite IH by (intros x Hx; apply Hlist; now right).
      f_equal. unfold accepted_in.
      now rewrite (Hlist d (or_introl eq_refl)), filter_idem. }
    now rewrite E.
  - intros rules total Hres.
    assert (Hfiles : forall f content d name,
              In d (searched_dirs w rules_dir) ->
              In (name, content) (listdir w d) ->
              considered name = true ->
              f = os_path_join d name ->
              In (f, content) (glob_glob w (os_path_join rules_dir "*.y*ml"))).
    { intros f content d name Hd Hin Hc ->. rewrite glob_yaml.
      apply in_flat_map. exists d. split; [ exact Hd | ].
      apply accepted_in_entry. now exists name. }
    split.
    + assert (Hkeys : forall f, In f (map fst rules) ->
                In f (map fst (glob_glob w
                                 (os_path_join rules_dir "*.y*ml")))).
      { refine (load_rules_invariant
                  (fun st => forall f, In f (map fst (fst st)) ->
                             In f (map fst (glob_glob w
                                              (os_path_join rules_dir
                                                 "*.y*ml"))))
                  color w rules_dir _ _ (rules, total) Hres).
        - intros f [].
        - intros entry item st st' Hentry Hst Hitem f Hf.
          destruct (load_item_cases _ _ _ _ Hitem)
            as [-> | (name & c & _ & ->)]; [ now apply Hst | ].
          apply keys_append in Hf.
          destruct Hf as [-> | Hf]; [ | now apply Hst ].
          now apply in_map. }
      intros f Hf. apply Hkeys in Hf. apply in_map_iff in Hf.
      destruct Hf as ([f' content] & <- & Hin). cbn [fst].
      rewrite glob_yaml in Hin. apply in_flat_map in Hin.
      destruct Hin as (d & Hd & Hin). apply accepted_in_entry in Hin.
      destruct Hin as (name & Hin & Hc & ->). now exists d, name, content.
    + intros d name content Hd Hin Hc.
      pose proof (Hfiles _ content d name Hd Hin Hc eq_refl) as Hfile.
      unfold load_rules in Hres |- *. cbv zeta in Hres |- *.
      destruct (glob_glob w (os_path_join rules_dir "*.y*ml"))
        as [ | e files]; [ destruct Hfile | ].
      split.
      * intros msg ->.
        exact (load_files_print_warning color (e :: files) ([], 0)
                 (rules, total) _ msg Hres Hfile).
      * intros r Hr.
        exact (load_files_hold_rules color (e :: files) ([], 0)
                 (rules, total) _ content r Hres Hfile Hr).
Qed.

End Glob.

(** ** The driver *)

Section Driver.

Context {R : Runtime}.



Lemma plain_scanned (color : bool) (l : list event) :
  Forall (plain color) l -> scanned l = [].
Proof.
  induction 1 as [ | e l He _ IH]; [ reflexivity | ].
  destruct e; simpl in *; [ exact IH | exact IH | contradiction ].
Qed.





Lemma load_file_plain (color : bool) (entry : string * loaded)
  (st : ruleset * nat) :
  Forall (plain color) (log (load_file color entry st)).
Proof.
  destruct entry as [file content]. unfold load_file.
  destruct content as [msg | data].
  - apply bind_log_Forall; [ | constructor ].
    constructor; [ plain_line | constructor ].
  - destruct (negb (truthy data)); [ constructor | ].
    apply bind_log_Forall; [ constructor | intros has ].
    destruct (negb has); [ constructor | ].
    apply bind_log_Forall; [ constructor | intros entries ].
    apply bind_log_Forall; [ constructor | intros items ].
    apply for_each_log. intros item s. rewrite load_item_log. constructor.
Qed.

Lemma load_rules_plain (color : bool) (w : world) (rules_dir : string) :
  Forall (plain color) (log (load_rules color w rules_dir)).
Proof.
  unfold load_rules. destruct (glob_glob w (os_path_join rules_dir "*.y*ml")).
  - apply bind_log_Forall; [ | constructor ].
    constructor; [ plain_line | constructor ].
  - apply for_each_log. intros entry st. apply load_file_plain.
Qed.










Lemma scan_file_missing (color : bool) (w : world) (path : string)
  (rules : ruleset) :
  token_path w path = NoSuchPath ->
  scan_file color w path rules = ([not_found_line color], Returned tt).
Proof. intros H. unfold scan_file. now rewrite H. Qed.



Lemma bind_print_then {A B : Type} (x : string) (m : io A)
  (K : A -> io B) (st : A) :
  result m = Returned st ->
  bind (print x) (fun _ => bind m K)
  = bind (Stdout x :: log m, Returned tt) (fun _ => K st).
Proof.
  destruct m as [l o]. cbn [result log fst snd]. intros ->.
  unfold bind, print, emit. destruct (K st). reflexivity.
Qed.

(** The run up to the point the rules are loaded. *)
Lemma main_loaded (w : world) (a : args) (rules : ruleset) (total : nat) :
  (given (token a) || given (file a)) = true ->
  result (load_rules (color_enabled w a) w (directory a))
  = Returned (rules, total) ->
  main w a =
  bind
    (loading_line (color_enabled w a)
     :: log (load_rules (color_enabled w a) w (directory a)), Returned tt)
    (fun _ =>
       if (total =? 0)%nat then
         print (Color.wrap (color_enabled w a) "[!] No valid rules loaded"
                  Color.RED) ;;
         sys_exit 1
       else
         print (Color.wrap (color_enabled w a)
                  ("[+] Loaded " ++ str_of_nat total ++ " regex patterns"
                   ++ nl) Color.GREEN) ;;
         if given (token a) then
           print (Color.wrap (color_enabled w a) "Token:" Color.BOLD ++ " "
                  ++ Color.wrap (color_enabled w a) (text_of (token a))
                       Color.YELLOW) ;;
           matches <-
             scan_token (color_enabled w a) (text_of (token a)) rules ;;
           print_summary (color_enabled w a) 1 matches
         else if given (file a) then
           scan_file (color_enabled w a) w (text_of (file a)) rules
         else ret tt).
Proof.
  intros Hg Hload. unfold main.
  assert (Hc : negb (given (token a)) && negb (given (file a)) = false)
    by (destruct (given (token a)), (given (file a)); auto; discriminate).
  rewrite Hc.
  exact (bind_print_then _ _ _ (rules, total) Hload).
Qed.




(** The run when no rule was loaded. *)
Lemma main_no_rules (w : world) (a : args) (rules : ruleset) :
  (given (token a) || given (file a)) = true ->
  result (load_rules (color_enabled w a) w (directory a))
  = Returned (rules, 0) ->
  main w a =
  (loading_line (color_enabled w a)
   :: log (load_rules (color_enabled w a) w (directory a))
   ++ [no_rules_line (color_enabled w a)],
   Raised (SystemExit 1)).
Proof.
  intros Hg Hload. rewrite (main_loaded w a rules 0 Hg Hload). reflexivity.
Qed.




(** The run in file-of-tokens mode, once rules are loaded. *)
Lemma main_file_run (w : world) (a : args) (rules : ruleset) (total : nat) :
  given (token a) = false ->
  given (file a) = true ->
  result (load_rules (color_enabled w a) w (directory a))
  = Returned (rules, total) ->
  total <> 0 ->
  main w a =
  ((loading_line (color_enabled w a)
    :: log (load_rules (color_enabled w a) w (directory a))
    ++ [loaded_line (color_enabled w a) total])
   ++ log (scan_file (color_enabled w a) w (text_of (file a)) rules),
   result (scan_file (color_enabled w a) w (text_of (file a)) rules)).
Proof.
  intros Ht Hf Hload Hne.
  assert (Hg' : (given (token a) || given (file a)) = true)
    by (now rewrite Hf, orb_true_r).
  rewrite (main_loaded w a rules total Hg' Hload).
  apply Nat.eqb_neq in Hne. rewrite Hne, Ht, Hf.
  rewrite (io_eta (scan_file _ w _ rules)).
  cbn [bind print emit app log result fst snd].
  rewrite <- app_assoc. reflexivity.
Qed.


End Driver.

Section DriverProperties.

Context {R : Runtime}.

(** C7.  Whenever loading yields a total rule count of zero, the run exits
    with status 1 and [scan_token] is never called; when an input was given
    (so that the rules are loaded at all) the run is: the loading line, what
    the loader printed, then the error line "[!] No valid rules loaded", and
    [sys.exit(1)]. *)
Theorem no_rules_exits_before_scanning (w : world) (a : args)
  (rules : ruleset) :
  result (load_rules (color_enabled w a) w (directory a))
  = Returned (rules, 0) ->
  exit_status (main w a) = 1%Z
  /\ scanned (log (main w a)) = []
  /\ ((given (token a) || given (file a)) = true ->
      main w a =
      (loading_line (color_enabled w a)
       :: log (load_rules (color_enabled w a) w (directory a))
       ++ [no_rules_line (color_enabled w a)],
       Raised (SystemExit 1))).
Proof.
  intros Hload.
  destruct (given (token a) || given (file a)) eqn:Hg.
  - rewrite (main_no_rules w a rules Hg Hload).
    split; [ reflexivity | split; [ | reflexivity ] ].
    cbn [log fst]. apply (plain_scanned (color_enabled w a)).
    constructor; [ plain_line | ].
    apply Forall_app. split; [ apply load_rules_plain | ].
    constructor; [ plain_line | constructor ].
  - apply orb_false_iff in Hg. destruct Hg as [Ht Hf].
    unfold main. rewrite Ht, Hf.
    split; [ reflexivity | split; [ reflexivity | discriminate ] ].
Qed.

(** C8 (as amended).  In a run with a token file and no token, in which at
    least one rule was loaded and nothing exists at the path of the token
    file, the program prints "[!] Input file not found" after the loader's
    lines and returns: no token is scanned and the exit status is 0. *)
Theorem missing_token_file_is_not_fatal (w : world) (a : args)
  (path : string) (rules : ruleset) (total : nat) :
  given (token a) = false ->
  file a = Some path -> path <> "" ->
  token_path w path = NoSuchPath ->
  result (load_rules (color_enabled w a) w (directory a))
  = Returned (rules, total) ->
  total <> 0 ->
  main w a =
  (loading_line (color_enabled w a)
   :: log (load_rules (color_enabled w a) w (directory a))
   ++ [loaded_line (color_enabled w a) total;
       not_found_line (color_enabled w a)],
   Returned tt)
  /\ scanned (log (main w a)) = []
  /\ exit_status (main w a) = 0%Z.
Proof.
  intros Ht Hfile Hpath Hmissing Hload Hne.
  assert (Hf : given (file a) = true).
  { rewrite Hfile. cbn [given]. apply String.eqb_neq in Hpath.
    now rewrite Hpath. }
  assert (Hrun : main w a =
                 (loading_line (color_enabled w a)
                  :: log (load_rules (color_enabled w a) w (directory a))
                  ++ [loaded_line (color_enabled w a) total;
                      not_found_line (color_enabled w a)],
                  Returned tt)).
  { rewrite (main_file_run w a rules total Ht Hf Hload Hne).
    rewrite Hfile. cbn [text_of].
    rewrite (scan_file_missing _ w path rules Hmissing).
    cbn [log result fst snd app]. rewrite <- app_assoc. reflexivity. }
  rewrite Hrun. split; [ reflexivity | split; [ | reflexivity ] ].
  cbn [log fst]. apply (plain_scanned (color_enabled w a)).
  constructor; [ plain_line | ].
  apply Forall_app. split; [ apply load_rules_plain | ].
  constructor; [ plain_line | ].
  constructor; [ plain_line | constructor ].
Qed.



End DriverProperties.

(** ** Further properties of the program *)

Section Further.

Context {R : Runtime}.

(** X1.  Without a token and without a token file the driver prints the usage
    text and exits with status 1; nothing is loaded or scanned. *)
Theorem usage_when_no_input (w : world) (a : args) :
  given (token a) = false ->
  given (file a) = false ->
  main w a = ([Usage], Raised (SystemExit 1)).
Proof. intros Ht Hf. unfold main. rewrite Ht, Hf. reflexivity. Qed.




End Further.

(** ** Concrete runs, on the reference runtime *)

(** The specification's first scenario: the email rule and the token
    [user@example.com] give one match; the match is found inside the token. *)
Example email_scenario :
  result (scan_token false "user@example.com"
            [("rules/a.yml", [Sample.email_rule])])
  = Returned 1
  /\ re_search Sample.email_pattern "see user@example.com, please" = true
  /\ re_search Sample.email_pattern "no address here" = false.
Proof. repeat split; vm_compute; reflexivity. Qed.

(** A token file with three non-blank and two blank lines: three tokens are
    scanned and the summary says so. *)
Example token_file_scenario :
  scanned (log (main (Sample.one_rule Sample.tokens_txt)
                  (Sample.run None (Some "tokens.txt"))))
  = ["user@example.com"; "plain"; "a@b"]
  /\ exists before,
       stdout (log (main (Sample.one_rule Sample.tokens_txt)
                      (Sample.run None (Some "tokens.txt"))))
       = before ++ ["SCAN COMPLETE"; "Tokens scanned : 3"; "Total matches  : 2"].
Proof.
  split; [ vm_compute; reflexivity | ].
  exists (firstn 14
            (stdout (log (main (Sample.one_rule Sample.tokens_txt)
                            (Sample.run None (Some "tokens.txt")))))).
  vm_compute. reflexivity.
Qed.







(** C4 at a failing input: the rule file [a.yml] holds [patterns:] with
    nothing under it, and [load_rules] raises [TypeError] instead of going on
    to [b.yml], whose rule loads when [a.yml] is not there. *)
Lemma malformed_rule_file_aborts_load :
  load_rules false
    (Sample.world_of
       [("a.yml", Parsed (YMap [("patterns", YNull)]));
        ("b.yml", Sample.rule_file [Sample.email])]
       Sample.no_tokens)
    "rules"
  = raise TypeError
  /\ load_rules false
       (Sample.world_of [("b.yml", Sample.rule_file [Sample.email])]
          Sample.no_tokens)
       "rules"
     = ret ([("rules/b.yml", [Sample.email_rule])], 1)
  /\ exit_status
       (main (Sample.world_of
                [("a.yml", Parsed (YMap [("patterns", YNull)]));
                 ("b.yml", Sample.rule_file [Sample.email])]
                Sample.no_tokens)
          (Sample.run (Some "user@example.com") None))
     = 1%Z.
Proof. repeat split; vm_compute; reflexivity. Qed.

(** Counterexample to C5 as stated: [rules.yxml] ends in neither [.yml] nor
    [.yaml] and its rule is loaded; [.hidden.yml] ends in [.yml] and is not
    read. *)
Lemma other_names_are_read_and_hidden_ones_are_not :
  str_endswith "rules.yxml" ".yml" = false
  /\ str_endswith "rules.yxml" ".yaml" = false
  /\ load_rules false
       (Sample.world_of [("rules.yxml", Sample.rule_file [Sample.email])]
          Sample.no_tokens)
       "rules"
     = ret ([("rules/rules.yxml", [Sample.email_rule])], 1)
  /\ str_endswith ".hidden.yml" ".yml" = true
  /\ load_rules false
       (Sample.world_of [(".hidden.yml", Sample.rule_file [Sample.email])]
          Sample.no_tokens)
       "rules"
     = ([Stdout "[!] No YAML files found in rules"], Returned ([], 0)).
Proof. repeat split; vm_compute; reflexivity. Qed.

(** Witness of C6. *)
Lemma load_rules_counts_one_rule :
  result (load_rules false (Sample.one_rule Sample.no_tokens) "rules")
  = Returned ([("rules/a.yml", [Sample.email_rule])], 1)
  /\ 1 = rule_count [("rules/a.yml", [Sample.email_rule])]
  /\ well_compiled [("rules/a.yml", [Sample.email_rule])].
Proof.
  split; [ reflexivity | ].
  apply (@load_rules_total_is_rule_count reference false
           (Sample.one_rule Sample.no_tokens) "rules").
  reflexivity.
Defined.

(** Witness of C7: an empty rules directory. *)
Lemma empty_directory_exits_with_1 :
  result (load_rules false Sample.no_rules "rules") = Returned ([], 0)
  /\ exit_status (main Sample.no_rules
                    (Sample.run (Some "user@example.com") None)) = 1%Z
  /\ scanned (log (main Sample.no_rules
                     (Sample.run (Some "user@example.com") None))) = [].
Proof.
  split; [ reflexivity | ].
  destruct (@no_rules_exits_before_scanning reference Sample.no_rules
              (Sample.run (Some "user@example.com") None) [] eq_refl)
    as (H1 & H2 & _).
  split; [ exact H1 | exact H2 ].
Defined.

(** Witness of C8. *)
Lemma missing_file_exits_with_0 :
  token_path (Sample.one_rule Sample.no_tokens) "missing.txt" = NoSuchPath
  /\ scanned (log (main (Sample.one_rule Sample.no_tokens)
                     (Sample.run None (Some "missing.txt")))) = []
  /\ exit_status (main (Sample.one_rule Sample.no_tokens)
                    (Sample.run None (Some "missing.txt"))) = 0%Z.
Proof.
  split; [ reflexivity | ].
  refine (proj2 (@missing_token_file_is_not_fatal reference
                   (Sample.one_rule Sample.no_tokens)
                   (Sample.run None (Some "missing.txt")) "missing.txt"
                   [("rules/a.yml", [Sample.email_rule])] 1
                   eq_refl eq_refl _ eq_refl eq_refl _));
    discriminate.
Defined.

(** Counterexample to C8 as stated: a token file that does not exist, in a
    run that finds no rules, ends with exit status 1. *)
Lemma missing_file_without_rules_exits_with_1 :
  file (Sample.run None (Some "missing.txt")) = Some "missing.txt"
  /\ token (Sample.run None (Some "missing.txt")) = None
  /\ token_path Sample.no_rules "missing.txt" = NoSuchPath
  /\ main Sample.no_rules (Sample.run None (Some "missing.txt"))
     = ([Stdout "[*] Loading rules...";
         Stdout "[!] No YAML files found in rules";
         Stdout "[!] No valid rules loaded"],
        Raised (SystemExit 1))
  /\ exit_status (main Sample.no_rules (Sample.run None (Some "missing.txt")))
     = 1%Z.
Proof. repeat split; vm_compute; reflexivity. Qed.





(** Witness of X1: a run without input. *)
Lemma no_input_prints_usage :
  main Sample.no_rules (Sample.run None None)
  = ([Usage], Raised (SystemExit 1)).
Proof.
  apply (@usage_when_no_input reference Sample.no_rules
           (Sample.run None None)); reflexivity.
Defined.




(** ** The report of a scan *)

Section Report.

Context {R : Runtime}.








End Report.

(** ** The name a report gives to a rule file *)

Section BaseName.

(** X6.  The path under which the loader stores the rules of a directory
    entry has the entry's own name as its base name, whatever the rules
    directory: a match report names the file by its name in the directory.
    (The name of a directory entry holds no slash.) *)
Theorem report_names_the_file (rules_dir name : string) :
  has_slash name = false ->
  os_path_basename (os_path_join rules_dir name) = name.
Proof.
  intros Hn. unfold os_path_join.
  assert (Hp : String.prefix "/" name = false).
  { destruct name as [ | c name]; [ reflexivity | ].
    unfold has_slash in Hn. cbn [str_contains] in Hn.
    now apply orb_false_iff in Hn. }
  rewrite Hp.
  destruct (String.eqb rules_dir ""); [ now apply basename_plain | ].
  destruct (str_endswith rules_dir "/") eqn:E.
  - apply str_endswith_app in E. destruct E as (a & ->).
    replace ((a ++ "/") ++ name)%string with (a ++ String "/" name)%string.
    + now apply basename_after_slash.
    + clear. induction a as [ | c a IH]; cbn [append];
        [ reflexivity | now rewrite IH ].
  - now apply basename_after_slash.
Qed.

End BaseName.

(** ** The rule set the loader builds *)

Section RuleSet.

Context {R : Runtime}.














Lemma dict_append_nodup (rules : ruleset) (fname : string) (r : rule) :
  NoDup (map fst rules) -> NoDup (map fst (dict_append rules fname r)).
Proof.
  induction rules as [ | [f rs] rules IH]; intros H.
  - cbn. constructor; [ intros [] | constructor ].
  - cbn [dict_append]. cbn [map fst] in H.
    inversion H as [ | ? ? Hf Hrest]; subst.
    destruct (String.eqb f fname) eqn:E; cbn [map fst].
    + now constructor.
    + constructor; [ | now apply IH ].
      intros Hin. apply keys_append in Hin. destruct Hin as [-> | Hin].
      * now rewrite String.eqb_refl in E.
      * contradiction.
Qed.

Lemma dict_append_nonempty (rules : ruleset) (fname : string) (r : rule) :
  Forall (fun e : string * list rule => snd e <> []) rules ->
  Forall (fun e : string * list rule => snd e <> [])
    (dict_append rules fname r).
Proof.
  induction 1 as [ | [f rs] rules Hrs Hrest IH]; cbn [dict_append].
  - constructor; [ discriminate | constructor ].
  - destruct (String.eqb f fname); constructor; auto.
    cbn [snd]. intros H. now apply app_eq_nil in H.
Qed.

(** X8.  The rule set [load_rules] returns is a dictionary of rule lists that
    are not empty: no file occurs twice, every file listed has at least one
    rule, and the total is zero exactly when the rule set is empty, so the
    driver's test [total_rules == 0] is the test for an empty rule set. *)
Theorem loaded_rule_set_invariants (color : bool) (w : world)
  (rules_dir : string) (rules : ruleset) (total : nat) :
  result (load_rules color w rules_dir) = Returned (rules, total) ->
  NoDup (map fst rules)
  /\ Forall (fun e : string * list rule => snd e <> []) rules
  /\ (total = 0 <-> rules = []).
Proof.
  intros Hres.
  assert (Hinv : NoDup (map fst rules)
                 /\ Forall (fun e : string * list rule => snd e <> []) rules
                 /\ total = rule_count rules).
  { refine (load_rules_invariant
              (fun st => NoDup (map fst (fst st))
                         /\ Forall (fun e : string * list rule =>
                                      snd e <> []) (fst st)
                         /\ snd st = rule_count (fst st))
              color w rules_dir _ _ (rules, total) Hres).
    - repeat split; constructor.
    - intros entry item st st' _ (Hn & Hne & Hc) Hitem.
      destruct (load_item_cases _ _ _ _ Hitem)
        as [-> | (name & c & _ & ->)]; [ now repeat split | ].
      cbn [fst snd]. repeat split.
      + now apply dict_append_nodup.
      + now apply dict_append_nonempty.
      + now rewrite rule_count_append, Hc. }
  destruct Hinv as (Hn & Hne & Hc). repeat split; auto.
  - intros ->. destruct rules as [ | [f rs] rules]; [ reflexivity | ].
    inversion Hne as [ | ? ? Hrs _]; subst. cbn [snd] in Hrs.
    destruct rs as [ | r rs]; [ contradiction | ].
    unfold rule_count in Hc. cbn in Hc. discriminate.
  - intros ->. exact Hc.
Qed.

Lemma load_items_silent (fname : string) (items : list yaml)
  (st : ruleset * nat) :
  log (for_each items (load_item fname) st) = [].
Proof.
  revert st. induction items as [ | item items IH]; intros st;
    [ reflexivity | ].
  rewrite for_each_cons, log_bind, load_item_log.
  destruct (result (load_item fname item st)); [ apply IH | reflexivity ].
Qed.

Lemma load_file_warns (color : bool) (entry : string * loaded)
  (st : ruleset * nat) :
  log (load_file color entry st) = load_warning color entry.
Proof.
  destruct entry as [f content]. unfold load_file, load_warning.
  cbn [fst snd]. destruct content as [msg | data]; [ reflexivity | ].
  destruct (negb (truthy data)); [ reflexivity | ].
  destruct (py_contains "patterns" data) as [has | e];
    [ rewrite bind_lift_returned | reflexivity ].
  destruct (negb has); [ reflexivity | ].
  destruct (py_getitem data "patterns") as [entries | e];
    [ rewrite bind_lift_returned | reflexivity ].
  destruct (py_iter entries) as [items | e];
    [ rewrite bind_lift_returned | reflexivity ].
  apply load_items_silent.
Qed.

Lemma load_files_warn (color : bool) (fs : list (string * loaded))
  (st0 st : ruleset * nat) :
  result (for_each fs (load_file color) st0) = Returned st ->
  log (for_each fs (load_file color) st0)
  = flat_map (load_warning color) fs.
Proof.
  revert st0. induction fs as [ | x fs IH]; intros st0 Hres;
    [ reflexivity | ].
  rewrite for_each_cons, result_bind in Hres.
  rewrite for_each_cons, log_bind, load_file_warns.
  destruct (result (load_file color x st0)) as [st1 | err];
    [ | discriminate Hres ].
  cbn [flat_map]. f_equal. now apply IH.
Qed.

(** X9.  What [load_rules] prints when it returns: the line "[!] No YAML
    files found in <directory>" when the glob finds no file, and otherwise
    one "[!] Failed to load <path>: <message>" line for each file that could
    not be opened or parsed, in the order the files were found, and nothing
    for any other file or for any rule entry. *)
Theorem load_rules_prints_warnings (color : bool) (w : world)
  (rules_dir : string) (st : ruleset * nat) :
  result (load_rules color w rules_dir) = Returned st ->
  log (load_rules color w rules_dir)
  = match glob_glob w (os_path_join rules_dir "*.y*ml") with
    | [] => [no_yaml_line color rules_dir]
    | files => flat_map (load_warning color) files
    end.
Proof.
  unfold load_rules.
  destruct (glob_glob w (os_path_join rules_dir "*.y*ml")) as [ | e files];
    [ reflexivity | ].
  apply load_files_warn.
Qed.

End RuleSet.

(** ** Colour changes the text of the lines and nothing else *)

Section Colour.

Context {R : Runtime}.

Lemma similar_refl {A : Type} (m : io A) : similar m m.
Proof. now split. Qed.

Lemma similar_print (x y : string) : similar (print x) (print y).
Proof. now split. Qed.

Lemma similar_bind {A B : Type} (m1 m2 : io A) (f1 f2 : A -> io B) :
  similar m1 m2 -> (forall a, similar (f1 a) (f2 a)) ->
  similar (bind m1 f1) (bind m2 f2).
Proof.
  intros [Hl Hr] Hf. unfold similar.
  rewrite !log_bind, !result_bind, !map_app, Hl, <- Hr.
  destruct (result m1) as [a | e]; [ | now split ].
  destruct (Hf a) as [Hl' Hr']. now rewrite Hl', Hr'.
Qed.

Lemma similar_for_each {A St : Type} (xs : list A)
  (b1 b2 : A -> St -> io St) :
  (forall x st, similar (b1 x st) (b2 x st)) ->
  forall st, similar (for_each xs b1 st) (for_each xs b2 st).
Proof.
  intros Hb. induction xs as [ | x xs IH]; intros st.
  - apply similar_refl.
  - rewrite !for_each_cons. apply similar_bind; [ apply Hb | exact IH ].
Qed.

Lemma scanned_erase (l : list event) : scanned (map erase l) = scanned l.
Proof.
  induction l as [ | e l IH]; [ reflexivity | ].
  destruct e; cbn [map erase scanned]; now rewrite ?IH.
Qed.

Lemma load_rules_similar (c1 c2 : bool) (w : world) (rules_dir : string) :
  similar (load_rules c1 w rules_dir) (load_rules c2 w rules_dir).
Proof.
  unfold load_rules. destruct (glob_glob w (os_path_join rules_dir "*.y*ml")).
  - apply similar_bind; [ apply similar_print | intros; apply similar_refl ].
  - apply similar_for_each. intros [f content] st. unfold load_file.
    destruct content as [msg | data]; [ | apply similar_refl ].
    apply similar_bind; [ apply similar_print | intros; apply similar_refl ].
Qed.

Lemma scan_token_similar (c1 c2 : bool) (tok : string) (rules : ruleset) :
  similar (scan_token c1 tok rules) (scan_token c2 tok rules).
Proof.
  unfold scan_token. apply similar_bind; [ apply similar_refl | intros _ ].
  apply similar_bind.
  - apply similar_for_each. intros [f frs] [found n]. unfold scan_entry.
    apply similar_bind; [ apply similar_refl | intros [ms n'] ].
    destruct ms as [ | m ms]; [ apply similar_refl | ].
    apply similar_bind; [ apply similar_print | intros _ ].
    apply similar_bind; [ | intros; apply similar_refl ].
    apply similar_for_each. intros x u. apply similar_print.
  - intros [found n]. apply similar_bind; [ | intros; apply similar_refl ].
    destruct (negb found); [ apply similar_print | apply similar_refl ].
Qed.

Lemma print_summary_similar (c1 c2 : bool) (tokens matches : nat) :
  similar (print_summary c1 tokens matches)
    (print_summary c2 tokens matches).
Proof. now split. Qed.

Lemma scan_file_similar (c1 c2 : bool) (w : world) (path : string)
  (rules : ruleset) :
  similar (scan_file c1 w path rules) (scan_file c2 w path rules).
Proof.
  assert (Hloop : forall lines st,
            similar (for_each lines (scan_line c1 rules) st)
              (for_each lines (scan_line c2 rules) st)).
  { intros lines. apply similar_for_each. intros line [n m].
    unfold scan_line.
    destruct (String.eqb (py_strip line) ""); [ apply similar_refl | ].
    apply similar_bind; [ apply similar_print | intros _ ].
    apply similar_bind; [ apply similar_print | intros _ ].
    apply similar_bind; [ apply scan_token_similar | ].
    intros; apply similar_refl. }
  unfold scan_file. destruct (token_path w path) as [ | | lines | lines e].
  - apply similar_print.
  - apply similar_refl.
  - apply similar_bind; [ apply Hloop | ].
    intros [n m]. apply print_summary_similar.
  - apply similar_bind; [ apply Hloop | intros; apply similar_refl ].
Qed.

(** X10.  Colour is cosmetic: running on a terminal or not, with or without
    [--no-color], changes only the text of the printed lines.  The run
    prints the same number of lines at the same places, scans the same
    tokens in the same order, and ends the same way, with the same exit
    status. *)
Theorem colour_changes_text_only (w : world) (a : args) (tty nc : bool) :
  similar (main (with_isatty w tty) (with_no_color a nc)) (main w a)
  /\ scanned (log (main (with_isatty w tty) (with_no_color a nc)))
     = scanned (log (main w a))
  /\ exit_status (main (with_isatty w tty) (with_no_color a nc))
     = exit_status (main w a).
Proof.
  assert (H : similar (main (with_isatty w tty) (with_no_color a nc))
                (main w a)).
  { unfold main. cbn [with_isatty with_no_color token file directory].
    generalize (color_enabled (with_isatty w tty) (with_no_color a nc)) as c1.
    generalize (color_enabled w a) as c2. intros c2 c1.
    destruct (negb (given (token a)) && negb (given (file a)));
      [ apply similar_refl | ].
    apply similar_bind; [ apply similar_print | intros _ ].
    apply similar_bind;
      [ exact (load_rules_similar c1 c2 w (directory a))
      | intros [rules total] ].
    destruct (total =? 0)%nat.
    - apply similar_bind; [ apply similar_print | intros; apply similar_refl ].
    - apply similar_bind; [ apply similar_print | intros _ ].
      destruct (given (token a)).
      + apply similar_bind; [ apply similar_print | intros _ ].
        apply similar_bind; [ apply scan_token_similar | ].
        intros n. apply print_summary_similar.
      + destruct (given (file a)); [ | apply similar_refl ].
        exact (scan_file_similar c1 c2 w (text_of (file a)) rules). }
  destruct H as [Hl Hr]. split; [ now split | split ].
  - now rewrite <- scanned_erase, Hl, scanned_erase.
  - unfold exit_status. now rewrite Hr.
Qed.

End Colour.

(** ** When a run ends normally *)

Section Ending.

Context {R : Runtime}.



End Ending.

(** ** How scans compose *)

Section Composition.

Context {R : Runtime}.







End Composition.

(** ** More concrete runs, on the reference runtime *)



(** Witness of X6: a rule file of the default rules directory. *)
Lemma default_directory_report_name :
  has_slash "aws.yml" = false
  /\ os_path_join DEFAULT_RULES_DIR "aws.yml" = "/opt/regex/list/aws.yml"
  /\ os_path_basename (os_path_join DEFAULT_RULES_DIR "aws.yml") = "aws.yml".
Proof.
  split; [ reflexivity | split; [ reflexivity | ] ].
  apply (report_names_the_file DEFAULT_RULES_DIR "aws.yml"). reflexivity.
Defined.


(** Witness of X8: the rule set of the directory with the email rule. *)
Lemma one_rule_set_is_a_dictionary :
  result (load_rules false (Sample.one_rule Sample.no_tokens) "rules")
  = Returned ([("rules/a.yml", [Sample.email_rule])], 1)
  /\ NoDup (map fst [("rules/a.yml", [Sample.email_rule])])
  /\ (1 = 0 <->
      [("rules/a.yml", [Sample.email_rule])] = []).
Proof.
  split; [ reflexivity | ].
  destruct (@loaded_rule_set_invariants reference false
              (Sample.one_rule Sample.no_tokens) "rules"
              [("rules/a.yml", [Sample.email_rule])] 1
              eq_refl) as (Hn & _ & Hz).
  split; [ exact Hn | exact Hz ].
Defined.

(** Witness of X9: one warning, for the file that cannot be parsed. *)
Lemma one_warning_is_printed :
  result (load_rules false
            (Sample.world_of
               [("a.yml", LoadFails "could not find expected ':'");
                ("b.yml", Sample.rule_file [Sample.email])]
               Sample.no_tokens) "rules")
  = Returned ([("rules/b.yml", [Sample.email_rule])], 1)
  /\ log (load_rules false
            (Sample.world_of
               [("a.yml", LoadFails "could not find expected ':'");
                ("b.yml", Sample.rule_file [Sample.email])]
               Sample.no_tokens) "rules")
     = [Stdout "[!] Failed to load rules/a.yml: could not find expected ':'"].
Proof.
  split; [ reflexivity | ].
  apply (@load_rules_prints_warnings reference false
           (Sample.world_of
              [("a.yml", LoadFails "could not find expected ':'");
               ("b.yml", Sample.rule_file [Sample.email])]
              Sample.no_tokens) "rules"
           ([("rules/b.yml", [Sample.email_rule])], 1)).
  reflexivity.
Defined.


